(** * ha-ideenergy: the data update coordinator

    A shallow embedding of [custom_components/ideenergy/datacoordinator.py]
    and the properties of its update cycle.

    The coordinator is stateful Python: it owns a snapshot dictionary, a
    dictionary of barrier objects and a list of sensors, it calls an upstream
    API client and it raises and catches exceptions.  The embedding threads a
    [State] through a state-and-exception monad [M]; every call the
    coordinator makes on a collaborator (barrier, API client, logger) leaves
    an [Event] in the state's trace, so that "is never invoked" and "is called
    only after" are statements about traces. *)

From Stdlib Require Import ZArith Floats.SpecFloat.
From stdpp Require Import base option list functions gmap strings fin_maps.

Local Open Scope string_scope.
Local Open Scope list_scope.
Local Open Scope Z_scope.

(** ** Python values the coordinator handles *)

(** [datetime.tzinfo] objects.  [timezone] is [datetime.timezone(offset, name)],
    a fixed offset (in microseconds); [ZoneInfo] stands for a named zone and,
    more generally, for any [tzinfo] that is not a [datetime.timezone]. *)
Inductive tzinfo : Type :=
| timezone (utcoffset : Z) (tzname : option string)
| ZoneInfo (key : string).

(** [datetime.timezone.utc] *)
Definition timezone_utc : tzinfo := timezone 0 None.

(** [tz != timezone.utc], with [tz] possibly [None].  [timezone.__eq__]
    compares the offsets of two [timezone] objects and nothing else; against
    any other object Python falls back to identity, so the comparison is
    "not equal". *)
Definition ne_timezone_utc (tz : option tzinfo) : bool :=
  match tz with
  | Some (timezone off _) => negb (off =? 0)
  | Some (ZoneInfo _) => true
  | None => true
  end.

(** [datetime.datetime]: the wall-clock fields, the attached zone ([None] for
    a naive value) and the [fold] bit. *)
Record datetime : Type := mk_datetime {
  year : Z; month : Z; day : Z;
  hour : Z; minute : Z; second : Z; microsecond : Z;
  dt_tzinfo : option tzinfo;
  fold : Z
}.

(** [d.replace(tzinfo=tz)]: a copy of [d] with the zone swapped and every
    other attribute kept. *)
Definition replace_tzinfo (d : datetime) (tz : option tzinfo) : datetime :=
  {| year := year d; month := month d; day := day d;
     hour := hour d; minute := minute d; second := second d;
     microsecond := microsecond d;
     dt_tzinfo := tz;
     fold := fold d |}.

(** [datetime.timedelta], normalised as Python keeps it. *)
Record timedelta : Type := mk_timedelta {
  td_days : Z; td_seconds : Z; td_microseconds : Z
}.

Definition td_total_microseconds (t : timedelta) : Z :=
  (td_days t * 86400 + td_seconds t) * 1000000 + td_microseconds t.

(** Proleptic Gregorian day number of a civil date, and back. *)
Definition days_from_civil (y m d : Z) : Z :=
  let y' := if m <=? 2 then y - 1 else y in
  let era := y' / 400 in
  let yoe := y' - era * 400 in
  let mp := if 2 <? m then m - 3 else m + 9 in
  let doy := (153 * mp + 2) / 5 + d - 1 in
  let doe := yoe * 365 + yoe / 4 - yoe / 100 + doy in
  era * 146097 + doe - 719468.

Definition civil_from_days (z : Z) : Z * Z * Z :=
  let z' := z + 719468 in
  let era := z' / 146097 in
  let doe := z' - era * 146097 in
  let yoe := (doe - doe / 1460 + doe / 36524 - doe / 146096) / 365 in
  let doy := doe - (365 * yoe + yoe / 4 - yoe / 100) in
  let mp := (5 * doy + 2) / 153 in
  let d := doy - (153 * mp + 2) / 5 + 1 in
  let m := if mp <? 10 then mp + 3 else mp - 9 in
  let y := yoe + era * 400 in
  (if m <=? 2 then y + 1 else y, m, d).

Definition datetime_to_microseconds (d : datetime) : Z :=
  ((days_from_civil (year d) (month d) (day d) * 24 + hour d) * 60 + minute d)
    * 60 * 1000000
  + second d * 1000000 + microsecond d.

(** [d - t] for a [datetime] and a [timedelta]: wall-clock arithmetic that
    keeps the zone and clears [fold].  The [OverflowError] Python raises
    outside the years 1..9999 is out of reach of [datetime.today()] minus a
    period of days and is not modelled. *)
Definition datetime_sub (d : datetime) (t : timedelta) : datetime :=
  let us := datetime_to_microseconds d - td_total_microseconds t in
  let days := us / 86400000000 in
  let rest := us mod 86400000000 in
  let '(y, m, dd) := civil_from_days days in
  {| year := y; month := m; day := dd;
     hour := rest / 3600000000;
     minute := (rest / 60000000) mod 60;
     second := (rest / 1000000) mod 60;
     microsecond := rest mod 1000000;
     dt_tzinfo := dt_tzinfo d;
     fold := 0 |}.

(** *** Records of the [ideenergy] client library *)

(** What [api.get_measure()] returns: [accumulate] is an [int], [instant] a
    [float]. *)
Record Measure : Type := mk_Measure {
  accumulate : Z;
  instant : spec_float
}.

(** One line of a historical consumption or generation record. *)
Record PeriodValue : Type := mk_PeriodValue {
  pv_start : datetime;
  pv_end : datetime;
  pv_value : spec_float
}.

(** One line of a historical power demand record. *)
Record DemandAtInstant : Type := mk_DemandAtInstant {
  di_dt : datetime;
  di_value : spec_float
}.

(** The records carry their lines in [periods] or [demands]; whatever else
    the client library stores in them is carried along untouched in
    [*_other]. *)
Record HistoricalConsumption : Type := mk_HistoricalConsumption {
  hc_periods : list PeriodValue;
  hc_other : list (string * spec_float)
}.

Record HistoricalGeneration : Type := mk_HistoricalGeneration {
  hg_periods : list PeriodValue;
  hg_other : list (string * spec_float)
}.

Record HistoricalPowerDemand : Type := mk_HistoricalPowerDemand {
  hpd_demands : list DemandAtInstant;
  hpd_other : list (string * spec_float)
}.

(** The values stored in the snapshot dictionary ([CoordinatorData]). *)
Inductive Value : Type :=
| VNone
| VInt (n : Z)
| VFloat (f : spec_float)
| VHistoricalConsumption (h : HistoricalConsumption)
| VHistoricalGeneration (h : HistoricalGeneration)
| VHistoricalPowerDemand (h : HistoricalPowerDemand).

(** ** Exceptions *)

(** The exception classes that reach the coordinator.  [OtherException] is
    any further class deriving from [Exception]; [BaseExceptionOnly] is a
    class deriving from [BaseException] but not from [Exception]
    ([asyncio.CancelledError], [KeyboardInterrupt], [SystemExit],
    [GeneratorExit]). *)
Inductive exn : Type :=
| ValueError (msg : string)
| KeyError
| BarrierDeniedError (reason : string)
| UnicodeDecodeError
| RequestFailedError (reason : string) (status : Z)
| CommandError (msg : string)
| NotImplementedError
| OtherException (cls : string)
| BaseExceptionOnly (cls : string).

(** [isinstance(e, Exception)] *)
Definition is_Exception (e : exn) : bool :=
  match e with
  | BaseExceptionOnly _ => false
  | _ => true
  end.

Inductive result (A : Type) : Type :=
| Ok (a : A)
| Raise (e : exn).
Arguments Ok {A} a.
Arguments Raise {A} e.

(** ** The dataset catalogue *)

(** [class DataSetType(enum.IntFlag)] *)
Inductive DataSetType : Type :=
| NONE
| MEASURE
| HISTORICAL_CONSUMPTION
| HISTORICAL_GENERATION
| HISTORICAL_POWER_DEMAND
| ALL.

Global Instance DataSetType_eq_dec : EqDecision DataSetType.
Proof. solve_decision. Defined.

(** The integer behind each member. *)
Definition value (x : DataSetType) : Z :=
  match x with
  | NONE => 0
  | MEASURE => Z.shiftl 1 0
  | HISTORICAL_CONSUMPTION => Z.shiftl 1 1
  | HISTORICAL_GENERATION => Z.shiftl 1 2
  | HISTORICAL_POWER_DEMAND => Z.shiftl 1 3
  | ALL => 15
  end.

(** [for x in DataSetType].  Up to Python 3.10 the iteration yields every
    member in definition order; from 3.11 on it yields the single-bit members
    only.  The coordinator filters the enumeration, and both enumerations
    give the same filtered list ([requested_canonical] below), so the update
    cycle is written over the longer one. *)
Definition DataSetType_members : list DataSetType :=
  [NONE; MEASURE; HISTORICAL_CONSUMPTION; HISTORICAL_GENERATION;
   HISTORICAL_POWER_DEMAND; ALL].

Definition DataSetType_canonical : list DataSetType :=
  [MEASURE; HISTORICAL_CONSUMPTION; HISTORICAL_GENERATION;
   HISTORICAL_POWER_DEMAND].

(** The three generator expressions at the head of
    [_async_update_data_raw]:
    [x for x in DataSetType], [if x is not DataSetType.ALL],
    [if x & datasets]. *)
Definition requested_from (members : list DataSetType) (datasets : Z)
  : list DataSetType :=
  filter (λ x, Z.land (value x) datasets ≠ 0)
    (filter (λ x, x ≠ ALL) members).

Definition requested (datasets : Z) : list DataSetType :=
  requested_from DataSetType_members datasets.

(** ** Barriers *)

(** Modelled from the spec: the [Barrier] class of [barrier.py], which is not
    part of the sources.  A barrier holds the instant of its last success (or
    none) and a minimum interval; [check()] fails with [BarrierDeniedError]
    while that interval has not elapsed since the last success and returns
    otherwise, also when there has been no success yet; [success()] records
    the current instant.  An elapsed time equal to the interval allows. *)
Record Barrier : Type := mk_Barrier {
  min_interval : Z;
  last_success : option Z
}.

Definition Barrier_check (b : Barrier) (now : Z) : result unit :=
  match last_success b with
  | Some t =>
      if now - t <? min_interval b
      then Raise (BarrierDeniedError "minimum interval not elapsed")
      else Ok tt
  | None => Ok tt
  end.

Definition Barrier_success (b : Barrier) (now : Z) : Barrier :=
  {| min_interval := min_interval b; last_success := Some now |}.

(** ** Sensors *)

(** [IDeEntity] (of [entity.py], which is not part of the sources), as far
    as the coordinator looks at it: the class name it logs and the declared
    [I_DE_DATA_SETS]. *)
Record IDeEntity : Type := mk_IDeEntity {
  class_name : string;
  I_DE_DATA_SETS : list DataSetType
}.

Global Instance IDeEntity_eq_dec : EqDecision IDeEntity.
Proof. solve_decision. Defined.

(** ** Events *)

(** The four fetch routines of the coordinator. *)
Inductive FetchRoutine : Type :=
| FetchDirectReading
| FetchHistoricalConsumption
| FetchHistoricalGeneration
| FetchHistoricalPowerDemand.

(** The requests to the upstream API client. *)
Inductive ApiCall : Type :=
| ApiGetMeasure
| ApiGetHistoricalConsumption (start end_ : datetime)
| ApiGetHistoricalGeneration (start end_ : datetime)
| ApiGetHistoricalPowerDemand.

(** The [_LOGGER.debug] lines, one constructor per message. *)
Inductive LogRecord : Type :=
| LogRequestUpdate (ds : Z)
| LogIgnoredNoBarrier (d : DataSetType)
| LogDenied (d : DataSetType) (reason : string)
| LogAllowed (d : DataSetType)
| LogIgnoredNotImplemented (d : DataSetType)
| LogErrorEncoding (d : DataSetType)
| LogErrorRequestFailed (d : DataSetType) (reason : string) (status : Z)
| LogErrorCommand (d : DataSetType) (e : exn)
| LogErrorFixme (d : DataSetType) (e : exn)
| LogSuccessful (d : DataSetType)
| LogRegistered (cls : string)
| LogUnregistered (cls : string).

(** What the coordinator does to its collaborators, in order.
    [EvBarrierCheck d r]: [self.barriers[d].check()] was called and ended as
    [r]; [EvBarrierSuccess d]: [self.barriers[d].success()] was called;
    [EvInvoke f] and [EvReturn f]: the fetch routine [f] was entered, reached
    its [return]; [EvApi c]: the request [c] was sent upstream. *)
Inductive Event : Type :=
| EvLog (r : LogRecord)
| EvBarrierCheck (d : DataSetType) (outcome : result unit)
| EvBarrierSuccess (d : DataSetType)
| EvInvoke (f : FetchRoutine)
| EvApi (c : ApiCall)
| EvReturn (f : FetchRoutine).

(** ** Constants and collaborators *)

(** The names imported from [const.py], which is not part of the sources:
    the five snapshot keys, the length of the historical window and the local
    zone. *)
Class Const : Type := {
  DATA_ATTR_HISTORICAL_CONSUMPTION : string;
  DATA_ATTR_HISTORICAL_GENERATION : string;
  DATA_ATTR_HISTORICAL_POWER_DEMAND : string;
  DATA_ATTR_MEASURE_ACCUMULATED : string;
  DATA_ATTR_MEASURE_INSTANT : string;
  HISTORICAL_PERIOD_LENGHT : timedelta;
  LOCAL_TZ : tzinfo
}.

(** The five snapshot keys name five different slots. *)
Definition distinct_slots `{Const} : Prop :=
  NoDup [DATA_ATTR_MEASURE_ACCUMULATED; DATA_ATTR_MEASURE_INSTANT;
         DATA_ATTR_HISTORICAL_CONSUMPTION; DATA_ATTR_HISTORICAL_GENERATION;
         DATA_ATTR_HISTORICAL_POWER_DEMAND].

(** Everything outside the coordinator, as a state [W] the coordinator can
    only act on through these operations: the four requests of the API client
    (each answers or raises, and moves the outside world on), and the clocks
    read by [datetime.today()], by [dt_util.utcnow()] and by the barriers. *)
Class Upstream (W : Type) : Type := {
  api_get_measure : W → result Measure * W;
  api_get_historical_consumption :
    datetime → datetime → W → result HistoricalConsumption * W;
  api_get_historical_generation :
    datetime → datetime → W → result HistoricalGeneration * W;
  api_get_historical_power_demand : W → result HistoricalPowerDemand * W;
  clock_today : W → datetime;
  clock_utcnow : W → datetime;
  clock_barrier : W → Z
}.

(** ** State *)

(** Barrier objects live in a store and the [barriers] dictionary holds
    references to them, as in Python: nothing keeps two datasets from being
    given the same [Barrier] object. *)
Abbreviation loc := nat.

(** The attributes of [IDeCoordinator]. *)
Record Coordinator : Type := mk_Coordinator {
  data : gmap string Value;
  barriers : gmap Z loc;
  sensors : list IDeEntity
}.

Record State (W : Type) : Type := mk_State {
  self : Coordinator;
  heap : loc → Barrier;
  world : W;
  trace : list Event
}.
Arguments mk_State {W} _ _ _ _.
Arguments self {W} _.
Arguments heap {W} _.
Arguments world {W} _.
Arguments trace {W} _.

(** [d1 | d2] on dictionaries: the entries of [d2], and those of [d1] whose
    key [d2] does not have. *)
Definition dict_or (d1 d2 : gmap string Value) : gmap string Value := d2 ∪ d1.

(** [d.update(other)] *)
Definition dict_update (d other : gmap string Value) : gmap string Value :=
  other ∪ d.

(** ** The state-and-exception monad *)

Definition M (W A : Type) : Type := State W → State W * result A.

Global Instance M_ret {W} : MRet (M W) := λ A a st, (st, Ok a).

Global Instance M_bind {W} : MBind (M W) := λ A B f m st,
  match m st with
  | (st', Ok a) => f a st'
  | (st', Raise e) => (st', Raise e)
  end.

(** [raise e] *)
Definition raise {W A} (e : exn) : M W A := λ st, (st, Raise e).

(** [try: m], handing the outcome to the [except] clauses that follow. *)
Definition try {W A} (m : M W A) : M W (result A) := λ st,
  let '(st', r) := m st in (st', Ok r).

Definition emit {W} (e : Event) : M W unit := λ st,
  (mk_State (self st) (heap st) (world st) (trace st ++ [e]), Ok tt).

(** [_LOGGER.debug(...)] *)
Definition log {W} (r : LogRecord) : M W unit := emit (EvLog r).

Definition get_self {W} : M W Coordinator := λ st, (st, Ok (self st)).

Definition set_self {W} (c : Coordinator) : M W unit := λ st,
  (mk_State c (heap st) (world st) (trace st), Ok tt).

Section Coordinator.
Context {W : Type} `{!Upstream W} `{!Const}.

Abbreviation M := (M W).

(** *** Collaborators *)

(** [await self.api.<request>(...)] *)
Definition await_api {A} (c : ApiCall) (request : W → result A * W) : M A :=
  λ st,
    let '(r, w) := request (world st) in
    (mk_State (self st) (heap st) w (trace st ++ [EvApi c]), r).

(** [datetime.today()]: the local wall clock, naive. *)
Definition datetime_today : M datetime := λ st,
  (st, Ok (replace_tzinfo (clock_today (world st)) None)).

(** [dt_util.utcnow()]: the UTC wall clock, carrying [timezone.utc]. *)
Definition dt_util_utcnow : M datetime := λ st,
  (st, Ok (replace_tzinfo (clock_utcnow (world st)) (Some timezone_utc))).

(** [self.barriers[dataset].check()]: [KeyError] when the dictionary has no
    such key, else whatever the barrier's [check] does. *)
Definition barrier_check (dataset : DataSetType) : M unit := λ st,
  match barriers (self st) !! value dataset with
  | None => (st, Raise KeyError)
  | Some l =>
      let r := Barrier_check (heap st l) (clock_barrier (world st)) in
      (mk_State (self st) (heap st) (world st)
         (trace st ++ [EvBarrierCheck dataset r]), r)
  end.

(** [self.barriers[dataset].success()] *)
Definition barrier_success (dataset : DataSetType) : M unit := λ st,
  match barriers (self st) !! value dataset with
  | None => (st, Raise KeyError)
  | Some l =>
      let b := Barrier_success (heap st l) (clock_barrier (world st)) in
      (mk_State (self st) (<[l := b]> (heap st)) (world st)
         (trace st ++ [EvBarrierSuccess dataset]), Ok tt)
  end.

(** *** Timestamp normalisation *)

Definition normalize_period_item (item : PeriodValue) : PeriodValue :=
  let item :=
    {| pv_start := replace_tzinfo (pv_start item) (Some LOCAL_TZ);
       pv_end := pv_end item;
       pv_value := pv_value item |} in
  let item :=
    {| pv_start := pv_start item;
       pv_end := replace_tzinfo (pv_end item) (Some LOCAL_TZ);
       pv_value := pv_value item |} in
  item.

Definition normalize_dated_item (item : DemandAtInstant) : DemandAtInstant :=
  {| di_dt := replace_tzinfo (di_dt item) (Some LOCAL_TZ);
     di_value := di_value item |}.

(** *** Fetch routines *)

Definition get_direct_reading_data : M (gmap string Value) :=
  emit (EvInvoke FetchDirectReading);;
  data ← await_api ApiGetMeasure api_get_measure;
  emit (EvReturn FetchDirectReading);;
  mret (<[DATA_ATTR_MEASURE_INSTANT := VFloat (instant data)]>
         (<[DATA_ATTR_MEASURE_ACCUMULATED := VInt (accumulate data)]> ∅)).

Definition get_historical_consumption_data : M (gmap string Value) :=
  emit (EvInvoke FetchHistoricalConsumption);;
  end_ ← datetime_today;
  let start := datetime_sub end_ HISTORICAL_PERIOD_LENGHT in
  data ← await_api (ApiGetHistoricalConsumption start end_)
           (api_get_historical_consumption start end_);
  let data :=
    {| hc_periods := normalize_period_item <$> hc_periods data;
       hc_other := hc_other data |} in
  emit (EvReturn FetchHistoricalConsumption);;
  mret {[DATA_ATTR_HISTORICAL_CONSUMPTION := VHistoricalConsumption data]}.

Definition get_historical_generation_data : M (gmap string Value) :=
  emit (EvInvoke FetchHistoricalGeneration);;
  end_ ← datetime_today;
  let start := datetime_sub end_ HISTORICAL_PERIOD_LENGHT in
  data ← await_api (ApiGetHistoricalGeneration start end_)
           (api_get_historical_generation start end_);
  raise NotImplementedError.

Definition get_historical_power_demand_data : M (gmap string Value) :=
  emit (EvInvoke FetchHistoricalPowerDemand);;
  data ← await_api ApiGetHistoricalPowerDemand api_get_historical_power_demand;
  let data :=
    {| hpd_demands := normalize_dated_item <$> hpd_demands data;
       hpd_other := hpd_other data |} in
  emit (EvReturn FetchHistoricalPowerDemand);;
  mret {[DATA_ATTR_HISTORICAL_POWER_DEMAND := VHistoricalPowerDemand data]}.

(** *** The update cycle *)

(** The [if dataset is ... elif ... else] chain inside the second [try] of
    the loop: the fragment of the routine that serves [dataset], or [None]
    from the [else] branch, which logs and [continue]s. *)
Definition fetch (dataset : DataSetType) : M (option (gmap string Value)) :=
  match dataset with
  | MEASURE =>
      fragment ← get_direct_reading_data; mret (Some fragment)
  | HISTORICAL_CONSUMPTION =>
      fragment ← get_historical_consumption_data; mret (Some fragment)
  | HISTORICAL_GENERATION =>
      fragment ← get_historical_generation_data; mret (Some fragment)
  | HISTORICAL_POWER_DEMAND =>
      fragment ← get_historical_power_demand_data; mret (Some fragment)
  | _ => log (LogIgnoredNotImplemented dataset);; mret None
  end.

(** The body of [for dataset in requested]: [data] is the dictionary
    accumulated so far, the result is the dictionary after this dataset.
    Every [continue] returns [data] as it came in. *)
Definition for_dataset_body (dataset : DataSetType) (data : gmap string Value)
  : M (gmap string Value) :=
  checked ← try (barrier_check dataset);
  match checked with
  | Raise KeyError =>
      log (LogIgnoredNoBarrier dataset);; mret data
  | Raise (BarrierDeniedError reason) =>
      log (LogDenied dataset reason);; mret data
  | Raise e => raise e
  | Ok _ =>
      log (LogAllowed dataset);;
      fetched ← try (fetch dataset);
      match fetched with
      | Ok (Some fragment) =>
          let data := dict_update data fragment in
          barrier_success dataset;;
          log (LogSuccessful dataset);;
          mret data
      | Ok None => mret data
      | Raise UnicodeDecodeError =>
          log (LogErrorEncoding dataset);; mret data
      | Raise (RequestFailedError reason status) =>
          log (LogErrorRequestFailed dataset reason status);; mret data
      | Raise (CommandError msg) =>
          log (LogErrorCommand dataset (CommandError msg));; mret data
      | Raise e =>
          if is_Exception e
          then log (LogErrorFixme dataset e);; mret data
          else raise e
      end
  end.

Fixpoint for_dataset_in (requested : list DataSetType)
    (data : gmap string Value) : M (gmap string Value) :=
  match requested with
  | [] => mret data
  | dataset :: rest =>
      data ← for_dataset_body dataset data;
      for_dataset_in rest data
  end.

(** [now] is [None] when the caller leaves the argument out; a [datetime] is
    never falsy, so [now or dt_util.utcnow()] reads the clock in that case
    only. *)
Definition _async_update_data_raw (datasets : Z) (now : option datetime)
  : M (gmap string Value) :=
  now ← match now with
        | Some now => mret now
        | None => dt_util_utcnow
        end;
  if ne_timezone_utc (dt_tzinfo now)
  then raise (ValueError "now is missing tzinfo field")
  else for_dataset_in (requested datasets) ∅.

(** The nested loops over [self.sensors] and each [sensor.I_DE_DATA_SETS],
    the raw update for the datasets found, and [self.data | updated_data].
    The sensors declare members of [DataSetType], so [ds] is a union of
    members and [ds.name], which the debug line formats, is a string (the
    ["A|B"] naming of flag combinations the line itself relies on). *)
Definition _async_update_data : M (gmap string Value) :=
  this ← get_self;
  let ds :=
    foldl (λ ds sensor,
             foldl (λ ds s_ds, Z.lor ds (value s_ds)) ds
               (I_DE_DATA_SETS sensor))
      (value NONE) (sensors this) in
  log (LogRequestUpdate ds);;
  updated_data ← _async_update_data_raw ds None;
  this ← get_self;
  mret (dict_or (data this) updated_data).

(** *** The rest of the class *)

Definition register_sensor (sensor : IDeEntity) : M unit :=
  this ← get_self;
  set_self (mk_Coordinator (data this) (barriers this)
              (sensors this ++ [sensor]));;
  log (LogRegistered (class_name sensor)).



Definition update_internal_data (d : gmap string Value) : M unit :=
  this ← get_self;
  set_self (mk_Coordinator (dict_or (data this) d) (barriers this)
              (sensors this)).

(** [IDeCoordinator.__init__]: every slot of the snapshot starts as [None]. *)
Definition init_data : gmap string Value :=
  list_to_map
    ((λ k, (k, VNone)) <$>
       [DATA_ATTR_MEASURE_ACCUMULATED; DATA_ATTR_MEASURE_INSTANT;
        DATA_ATTR_HISTORICAL_CONSUMPTION; DATA_ATTR_HISTORICAL_GENERATION;
        DATA_ATTR_HISTORICAL_POWER_DEMAND]).

Definition init (barriers : gmap Z loc) : Coordinator :=
  mk_Coordinator init_data barriers [].

End Coordinator.

(** ** A scripted outside world

    A concrete [Upstream] for running the coordinator: each request answers
    what the script says and takes one second of the barriers' clock; the
    wall clocks stand still. *)
Module Demo.

Record World : Type := mk_World {
  measure : result Measure;
  consumption : result HistoricalConsumption;
  generation : result HistoricalGeneration;
  power_demand : result HistoricalPowerDemand;
  local_now : datetime;
  utc_now : datetime;
  seconds : Z
}.

Definition one_second_later (w : World) : World :=
  {| measure := measure w; consumption := consumption w;
     generation := generation w; power_demand := power_demand w;
     local_now := local_now w; utc_now := utc_now w;
     seconds := seconds w + 1 |}.

Global Instance upstream : Upstream World := {|
  api_get_measure w := (measure w, one_second_later w);
  api_get_historical_consumption _ _ w := (consumption w, one_second_later w);
  api_get_historical_generation _ _ w := (generation w, one_second_later w);
  api_get_historical_power_demand w := (power_demand w, one_second_later w);
  clock_today := local_now;
  clock_utcnow := utc_now;
  clock_barrier := seconds
|}.

Global Instance const : Const := {|
  DATA_ATTR_HISTORICAL_CONSUMPTION := "historical_consumption";
  DATA_ATTR_HISTORICAL_GENERATION := "historical_generation";
  DATA_ATTR_HISTORICAL_POWER_DEMAND := "historical_power_demand";
  DATA_ATTR_MEASURE_ACCUMULATED := "measure_accumulated";
  DATA_ATTR_MEASURE_INSTANT := "measure_instant";
  HISTORICAL_PERIOD_LENGHT := mk_timedelta 7 0 0;
  LOCAL_TZ := ZoneInfo "Europe/Madrid"
|}.

(** 2024-03-01 10:30:00, naive *)
Definition a_morning : datetime := mk_datetime 2024 3 1 10 30 0 0 None 0.

(** 1.5 as a binary64 float *)
Definition watts : spec_float := S754_finite false 6755399441055744 (-52).

Definition a_measure : Measure := mk_Measure 1234 watts.

Definition a_consumption : HistoricalConsumption :=
  mk_HistoricalConsumption
    [mk_PeriodValue (mk_datetime 2024 1 1 0 0 0 0 None 0)
                    (mk_datetime 2024 1 1 1 0 0 0 None 0) watts]
    [("total", watts)].

Definition a_generation : HistoricalGeneration :=
  mk_HistoricalGeneration [] [].

Definition a_power_demand : HistoricalPowerDemand :=
  mk_HistoricalPowerDemand
    [mk_DemandAtInstant (mk_datetime 2024 1 1 0 0 0 0 None 0) watts] [].

(** Every request answers. *)
Definition fair_weather : World :=
  mk_World (Ok a_measure) (Ok a_consumption) (Ok a_generation)
    (Ok a_power_demand) a_morning a_morning 1000.

(** One barrier object per dataset, none of them with a success yet. *)
Definition four_barriers : gmap Z loc :=
  <[value MEASURE := 0%nat]>
    (<[value HISTORICAL_CONSUMPTION := 1%nat]>
       (<[value HISTORICAL_GENERATION := 2%nat]>
          (<[value HISTORICAL_POWER_DEMAND := 3%nat]> ∅))).

Definition fresh_heap : loc → Barrier := λ _, mk_Barrier 60 None.

Definition start (w : World) (bs : gmap Z loc) : State World :=
  mk_State (init bs) fresh_heap w [].

Definition service_unavailable : exn :=
  RequestFailedError "Service Unavailable" 503.

(** The task awaiting the request is cancelled. *)
Definition cancelled : exn := BaseExceptionOnly "asyncio.CancelledError".

(** Every request fails upstream. *)
Definition upstream_down : World :=
  mk_World (Raise service_unavailable) (Raise service_unavailable)
    (Raise service_unavailable) (Raise service_unavailable)
    a_morning a_morning 1000.

(** The measure request is cancelled. *)
Definition measure_cancelled : World :=
  mk_World (Raise cancelled) (Ok a_consumption) (Ok a_generation)
    (Ok a_power_demand) a_morning a_morning 1000.

(** The generation request fails upstream; is cancelled. *)
Definition generation_down : World :=
  mk_World (Ok a_measure) (Ok a_consumption) (Raise service_unavailable)
    (Ok a_power_demand) a_morning a_morning 1000.

Definition generation_cancelled : World :=
  mk_World (Ok a_measure) (Ok a_consumption) (Raise cancelled)
    (Ok a_power_demand) a_morning a_morning 1000.

(** A barrier for the measure only. *)
Definition measure_barrier_only : gmap Z loc :=
  <[value MEASURE := 0%nat]> ∅.

(** Two sensors registered, one on the measure and one on the historical
    consumption. *)
Definition two_sensors : State World :=
  mk_State
    (mk_Coordinator init_data four_barriers
       [mk_IDeEntity "AccumulatedConsumption" [MEASURE];
        mk_IDeEntity "HistoricalConsumption" [HISTORICAL_CONSUMPTION]])
    fresh_heap fair_weather [].

End Demo.

(** ** Reading traces *)

Definition add_events {W} (tr : list Event) (st : State W) : State W :=
  mk_State (self st) (heap st) (world st) (trace st ++ tr).

(** The events a run from [st] to [st'] has added. *)
Definition new_events {W} (st st' : State W) : list Event :=
  drop (length (trace st)) (trace st').

(** The dataset each fetch routine and each request serves, read off the
    dispatch in the loop and the bodies of the routines. *)
Definition routine_dataset (f : FetchRoutine) : DataSetType :=
  match f with
  | FetchDirectReading => MEASURE
  | FetchHistoricalConsumption => HISTORICAL_CONSUMPTION
  | FetchHistoricalGeneration => HISTORICAL_GENERATION
  | FetchHistoricalPowerDemand => HISTORICAL_POWER_DEMAND
  end.

Definition api_dataset (c : ApiCall) : DataSetType :=
  match c with
  | ApiGetMeasure => MEASURE
  | ApiGetHistoricalConsumption _ _ => HISTORICAL_CONSUMPTION
  | ApiGetHistoricalGeneration _ _ => HISTORICAL_GENERATION
  | ApiGetHistoricalPowerDemand => HISTORICAL_POWER_DEMAND
  end.

Definition log_dataset (r : LogRecord) : option DataSetType :=
  match r with
  | LogIgnoredNoBarrier d | LogDenied d _ | LogAllowed d
  | LogIgnoredNotImplemented d | LogErrorEncoding d
  | LogErrorRequestFailed d _ _ | LogErrorCommand d _ | LogErrorFixme d _
  | LogSuccessful d => Some d
  | LogRequestUpdate _ | LogRegistered _ | LogUnregistered _ => None
  end.

(** The dataset an event is about. *)
Definition ev_dataset (e : Event) : option DataSetType :=
  match e with
  | EvLog r => log_dataset r
  | EvBarrierCheck d _ | EvBarrierSuccess d => Some d
  | EvInvoke f | EvReturn f => Some (routine_dataset f)
  | EvApi c => Some (api_dataset c)
  end.

(** The line the [except] clauses of the second [try] log for an exception
    they catch. *)
Definition error_log (d : DataSetType) (e : exn) : LogRecord :=
  match e with
  | UnicodeDecodeError => LogErrorEncoding d
  | RequestFailedError reason status => LogErrorRequestFailed d reason status
  | CommandError _ => LogErrorCommand d e
  | _ => LogErrorFixme d e
  end.

(** The events of a trace that are about [d]. *)
Definition events_about (d : DataSetType) (tr : list Event) : list Event :=
  filter (λ e, ev_dataset e = Some d) tr.

(** The declared dataset sets of a list of sensors, one after the other. *)
Definition declared (l : list IDeEntity) : list DataSetType :=
  l ≫= I_DE_DATA_SETS.

(** Bitwise union of a list of flags. *)
Definition union_of (l : list DataSetType) : Z :=
  foldr (λ x acc, Z.lor (value x) acc) 0 l.

(** The wall-clock reading of two timestamps is the same. *)
Definition same_wall_clock (a b : datetime) : Prop :=
  year a = year b ∧ month a = month b ∧ day a = day b ∧
  hour a = hour b ∧ minute a = minute b ∧ second a = second b ∧
  microsecond a = microsecond b.

(** Timezone-aware, in the zone [tz]. *)
Definition aware_in (tz : tzinfo) (d : datetime) : Prop :=
  dt_tzinfo d = Some tz.

(** [new] is [raw] with the zone [tz] attached to its timestamps and nothing
    else changed. *)
Definition period_annotated (tz : tzinfo) (raw new : PeriodValue) : Prop :=
  same_wall_clock (pv_start new) (pv_start raw) ∧ aware_in tz (pv_start new) ∧
  same_wall_clock (pv_end new) (pv_end raw) ∧ aware_in tz (pv_end new) ∧
  pv_value new = pv_value raw.

Definition demand_annotated (tz : tzinfo) (raw new : DemandAtInstant) : Prop :=
  same_wall_clock (di_dt new) (di_dt raw) ∧ aware_in tz (di_dt new) ∧
  di_value new = di_value raw.

Section Runs.
Context {W : Type} `{!Upstream W} `{!Const}.

(** The snapshot keys a dataset's fetch routine writes. *)
Definition slots (d : DataSetType) : list string :=
  match d with
  | MEASURE => [DATA_ATTR_MEASURE_ACCUMULATED; DATA_ATTR_MEASURE_INSTANT]
  | HISTORICAL_CONSUMPTION => [DATA_ATTR_HISTORICAL_CONSUMPTION]
  | HISTORICAL_GENERATION => [DATA_ATTR_HISTORICAL_GENERATION]
  | HISTORICAL_POWER_DEMAND => [DATA_ATTR_HISTORICAL_POWER_DEMAND]
  | NONE | ALL => []
  end.

(** The trailing window of the historical routines at [st]. *)
Definition window_end (st : State W) : datetime :=
  replace_tzinfo (clock_today (world st)) None.

Definition window_start (st : State W) : datetime :=
  datetime_sub (window_end st) HISTORICAL_PERIOD_LENGHT.

(** The request a fetch routine sends when it is entered at [st]. *)
Definition request_of (f : FetchRoutine) (st : State W) : ApiCall :=
  match f with
  | FetchDirectReading => ApiGetMeasure
  | FetchHistoricalConsumption =>
      ApiGetHistoricalConsumption (window_start st) (window_end st)
  | FetchHistoricalGeneration =>
      ApiGetHistoricalGeneration (window_start st) (window_end st)
  | FetchHistoricalPowerDemand => ApiGetHistoricalPowerDemand
  end.

(** What one pass through the dispatch can do: the routine returns a
    fragment, the routine raises, or the [else] branch is taken. *)
Inductive fetch_outcome (st : State W) (d : DataSetType)
  : State W → result (option (gmap string Value)) → Prop :=
| fetch_returned f w fragment :
    routine_dataset f = d →
    f ≠ FetchHistoricalGeneration →
    (∀ k, is_Some (fragment !! k) → k ∈ slots d) →
    fetch_outcome st d
      (mk_State (self st) (heap st) w
         (trace st ++ [EvInvoke f; EvApi (request_of f st); EvReturn f]))
      (Ok (Some fragment))
| fetch_raised f w e :
    routine_dataset f = d →
    fetch_outcome st d
      (mk_State (self st) (heap st) w
         (trace st ++ [EvInvoke f; EvApi (request_of f st)]))
      (Raise e)
| fetch_else :
    d = NONE ∨ d = ALL →
    fetch_outcome st d
      (add_events [EvLog (LogIgnoredNotImplemented d)] st) (Ok None).

(** What one iteration of the loop can do. *)
Inductive body_step (d : DataSetType) (data : gmap string Value)
    (st : State W) : State W → result (gmap string Value) → Prop :=
| step_no_barrier :
    barriers (self st) !! value d = None →
    body_step d data st
      (add_events [EvLog (LogIgnoredNoBarrier d)] st) (Ok data)
| step_denied l reason :
    barriers (self st) !! value d = Some l →
    Barrier_check (heap st l) (clock_barrier (world st))
      = Raise (BarrierDeniedError reason) →
    body_step d data st
      (add_events [EvBarrierCheck d (Raise (BarrierDeniedError reason));
                   EvLog (LogDenied d reason)] st)
      (Ok data)
| step_fetch_caught l stf e :
    barriers (self st) !! value d = Some l →
    fetch_outcome
      (add_events [EvBarrierCheck d (Ok ()); EvLog (LogAllowed d)] st) d
      stf (Raise e) →
    is_Exception e = true →
    body_step d data st (add_events [EvLog (error_log d e)] stf) (Ok data)
| step_fetch_escaped l stf e :
    barriers (self st) !! value d = Some l →
    fetch_outcome
      (add_events [EvBarrierCheck d (Ok ()); EvLog (LogAllowed d)] st) d
      stf (Raise e) →
    is_Exception e = false →
    body_step d data st stf (Raise e)
| step_not_dispatched l stf :
    barriers (self st) !! value d = Some l →
    fetch_outcome
      (add_events [EvBarrierCheck d (Ok ()); EvLog (LogAllowed d)] st) d
      stf (Ok None) →
    body_step d data st stf (Ok data)
| step_fetched l stf fragment :
    barriers (self st) !! value d = Some l →
    fetch_outcome
      (add_events [EvBarrierCheck d (Ok ()); EvLog (LogAllowed d)] st) d
      stf (Ok (Some fragment)) →
    body_step d data st
      (mk_State (self st)
         (<[l := Barrier_success (heap st l) (clock_barrier (world stf))]>
            (heap st))
         (world stf)
         (trace stf ++ [EvBarrierSuccess d; EvLog (LogSuccessful d)]))
      (Ok (dict_update data fragment)).

(** The loop: iterations one after the other, cut short by the first one
    that raises. *)
Inductive loop_run : list DataSetType → gmap string Value → State W →
    State W → result (gmap string Value) → Prop :=
| loop_done data st : loop_run [] data st st (Ok data)
| loop_next d rest data st data1 st1 st' r :
    body_step d data st st1 (Ok data1) →
    loop_run rest data1 st1 st' r →
    loop_run (d :: rest) data st st' r
| loop_abort d rest data st st1 e :
    body_step d data st st1 (Raise e) →
    loop_run (d :: rest) data st st1 (Raise e).

(** The events of one iteration over [d], given the [barriers] dictionary
    [bs]: one list per way through the loop body. *)
Inductive iteration_events (bs : gmap Z loc) (d : DataSetType)
  : list Event → Prop :=
| ie_ignored :
    bs !! value d = None →
    iteration_events bs d [EvLog (LogIgnoredNoBarrier d)]
| ie_denied reason :
    is_Some (bs !! value d) →
    iteration_events bs d
      [EvBarrierCheck d (Raise (BarrierDeniedError reason));
       EvLog (LogDenied d reason)]
| ie_caught f st e :
    is_Some (bs !! value d) →
    routine_dataset f = d →
    is_Exception e = true →
    iteration_events bs d
      [EvBarrierCheck d (Ok ()); EvLog (LogAllowed d);
       EvInvoke f; EvApi (request_of f st); EvLog (error_log d e)]
| ie_escaped f st :
    is_Some (bs !! value d) →
    routine_dataset f = d →
    iteration_events bs d
      [EvBarrierCheck d (Ok ()); EvLog (LogAllowed d);
       EvInvoke f; EvApi (request_of f st)]
| ie_not_dispatched :
    is_Some (bs !! value d) →
    d = NONE ∨ d = ALL →
    iteration_events bs d
      [EvBarrierCheck d (Ok ()); EvLog (LogAllowed d);
       EvLog (LogIgnoredNotImplemented d)]
| ie_fetched f st :
    is_Some (bs !! value d) →
    routine_dataset f = d →
    f ≠ FetchHistoricalGeneration →
    iteration_events bs d
      [EvBarrierCheck d (Ok ()); EvLog (LogAllowed d);
       EvInvoke f; EvApi (request_of f st); EvReturn f;
       EvBarrierSuccess d; EvLog (LogSuccessful d)].

(** The events of a loop over [ds]: the events of its iterations, for all of
    [ds] or for the datasets up to the one whose iteration raised. *)
Inductive loop_events (bs : gmap Z loc)
  : list DataSetType → list Event → Prop :=
| le_stop ds : loop_events bs ds []
| le_iteration d rest tr_d tr_rest :
    iteration_events bs d tr_d →
    loop_events bs rest tr_rest →
    loop_events bs (d :: rest) (tr_d ++ tr_rest).

(** Raw updates run one after the other, as a scheduler does: each tick's
    result, or the exception it ended with, is dropped here. *)
Fixpoint run_ticks (ticks : list (Z * option datetime)) (st : State W)
  : State W :=
  match ticks with
  | [] => st
  | (datasets, now) :: rest =>
      run_ticks rest (fst (_async_update_data_raw datasets now st))
  end.

End Runs.

(** ** Scenarios on the scripted world *)
Module Scenarios.
Import Demo.

(** All four barriers allowing and every request answering; a raw update for
    all datasets from there. *)
Definition sunny : State World := start fair_weather four_barriers.

Definition sunny_run : State World * result (gmap string Value) :=
  _async_update_data_raw 15 None sunny.

(** Every request failing: the state when the measure has been allowed, and
    the state the measure routine leaves. *)
Definition all_down : State World := start upstream_down four_barriers.

Definition all_down_allowed : State World :=
  add_events [EvBarrierCheck MEASURE (Ok ()); EvLog (LogAllowed MEASURE)]
    all_down.

Definition all_down_fetched : State World := (fetch MEASURE all_down_allowed).1.

(** A cancellation during the measure request; a failure of, and a
    cancellation during, the generation request. *)
Definition measure_cancelled_run : State World * result (gmap string Value) :=
  _async_update_data_raw 15 None (start measure_cancelled four_barriers).

Definition generation_down_run : State World * result (gmap string Value) :=
  _async_update_data_raw 15 None (start generation_down four_barriers).

Definition generation_cancelled_run
  : State World * result (gmap string Value) :=
  _async_update_data_raw 15 None (start generation_cancelled four_barriers).

(** The update driven by the two registered sensors. *)
Definition registered_run : State World * result (gmap string Value) :=
  _async_update_data two_sensors.

Definition registered_snapshot : gmap string Value :=
  match registered_run.2 with Ok d => d | Raise _ => ∅ end.

(** Only the measure has a barrier; two raw updates, for all datasets and
    for the historical consumption alone. *)
Definition unbarred : State World := start fair_weather measure_barrier_only.

Definition two_ticks : list (Z * option datetime) := [(15, None); (2, None)].

End Scenarios.

(** ** More ways to read a run *)

(** An event that is a request to the upstream service. *)
Definition is_request (e : Event) : bool :=
  match e with
  | EvApi _ => true
  | _ => false
  end.

(** The events of an allowed dataset up to its request, and of a dataset
    that was fetched, in the order the loop body produces them. *)
Definition allowed_block (d : DataSetType) (f : FetchRoutine) (c : ApiCall)
  : list Event :=
  [EvBarrierCheck d (Ok ()); EvLog (LogAllowed d); EvInvoke f; EvApi c].

Definition fetched_block (d : DataSetType) (f : FetchRoutine) (c : ApiCall)
  : list Event :=
  allowed_block d f c ++
  [EvReturn f; EvBarrierSuccess d; EvLog (LogSuccessful d)].

Section MoreRuns.
Context {W : Type} `{!Upstream W} `{!Const}.

(** The five keys of the snapshot, as [__init__] lists them. *)
Definition all_slots : list string :=
  [DATA_ATTR_MEASURE_ACCUMULATED; DATA_ATTR_MEASURE_INSTANT;
   DATA_ATTR_HISTORICAL_CONSUMPTION; DATA_ATTR_HISTORICAL_GENERATION;
   DATA_ATTR_HISTORICAL_POWER_DEMAND].

(** What the upstream service does with the request of routine [f] sent at
    [st]: the exception it raises, if it raises. *)
Definition request_failure (f : FetchRoutine) (st : State W) : option exn :=
  match f with
  | FetchDirectReading =>
      match (api_get_measure (world st)).1 with
      | Raise e => Some e
      | Ok _ => None
      end
  | FetchHistoricalConsumption =>
      match (api_get_historical_consumption (window_start st) (window_end st)
               (world st)).1 with
      | Raise e => Some e
      | Ok _ => None
      end
  | FetchHistoricalGeneration =>
      match (api_get_historical_generation (window_start st) (window_end st)
               (world st)).1 with
      | Raise e => Some e
      | Ok _ => None
      end
  | FetchHistoricalPowerDemand =>
      match (api_get_historical_power_demand (world st)).1 with
      | Raise e => Some e
      | Ok _ => None
      end
  end.

End MoreRuns.

(** ** More scenarios on the scripted world *)
Module MoreScenarios.
Import Demo.

(** Every barrier had a success ten seconds ago and asks for sixty. *)
Definition recent_heap : loc → Barrier := λ _, mk_Barrier 60 (Some 990).

Definition too_soon : State World :=
  mk_State (init four_barriers) recent_heap fair_weather [].

Definition too_soon_run : State World * result (gmap string Value) :=
  _async_update_data_raw 15 None too_soon.

(** The measure request is cancelled: the state when the measure has been
    allowed, and the state the measure routine leaves. *)
Definition cancelled_start : State World :=
  start measure_cancelled four_barriers.

Definition cancelled_allowed : State World :=
  add_events [EvBarrierCheck MEASURE (Ok ()); EvLog (LogAllowed MEASURE)]
    cancelled_start.

Definition cancelled_fetched : State World :=
  (fetch MEASURE cancelled_allowed).1.


End MoreScenarios.

(** * Properties *)

(** ** The monad *)

Lemma bind_run {W A B} (m : M W A) (f : A → M W B) (st : State W) :
  (m ≫= f) st =
  match m st with
  | (st', Ok a) => f a st'
  | (st', Raise e) => (st', Raise e)
  end.
Proof. reflexivity. Qed.

Lemma new_events_app {W} (st st' : State W) (tr : list Event) :
  trace st' = trace st ++ tr → new_events st st' = tr.
Proof. intros E. unfold new_events. rewrite E. apply drop_app_length. Qed.

Ltac unfold_monad :=
  unfold log, emit, raise, try, get_self, set_self, await_api,
    datetime_today, dt_util_utcnow, mbind, M_bind, mret, M_ret in *.

Ltac elem_cases :=
  repeat match goal with
    | H : _ ∈ [] |- _ => by apply elem_of_nil in H
    | H : _ ∈ _ :: _ |- _ => apply elem_of_cons in H as [H|H]
    end.

Ltac elem_solve :=
  repeat (first [ apply list_elem_of_here | apply list_elem_of_further ]).

Section Theory.
Context {W : Type} `{!Upstream W} `{!Const}.

(** ** The fetch routines, run *)

Lemma get_direct_reading_data_run (st : State W) :
  get_direct_reading_data st =
  match api_get_measure (world st) with
  | (Ok m, w) =>
      (mk_State (self st) (heap st) w
         (trace st ++ [EvInvoke FetchDirectReading; EvApi ApiGetMeasure;
                       EvReturn FetchDirectReading]),
       Ok (<[DATA_ATTR_MEASURE_INSTANT := VFloat (instant m)]>
             (<[DATA_ATTR_MEASURE_ACCUMULATED := VInt (accumulate m)]> ∅)))
  | (Raise e, w) =>
      (mk_State (self st) (heap st) w
         (trace st ++ [EvInvoke FetchDirectReading; EvApi ApiGetMeasure]),
       Raise e)
  end.
Proof.
  unfold get_direct_reading_data. unfold_monad. simpl.
  destruct (api_get_measure (world st)) as [[m|e] w]; simpl;
    by rewrite <- ?app_assoc.
Qed.

Lemma get_historical_consumption_data_run (st : State W) :
  get_historical_consumption_data st =
  match api_get_historical_consumption (window_start st) (window_end st)
          (world st) with
  | (Ok h, w) =>
      (mk_State (self st) (heap st) w
         (trace st ++ [EvInvoke FetchHistoricalConsumption;
                       EvApi (request_of FetchHistoricalConsumption st);
                       EvReturn FetchHistoricalConsumption]),
       Ok {[DATA_ATTR_HISTORICAL_CONSUMPTION :=
              VHistoricalConsumption
                {| hc_periods := normalize_period_item <$> hc_periods h;
                   hc_other := hc_other h |}]})
  | (Raise e, w) =>
      (mk_State (self st) (heap st) w
         (trace st ++ [EvInvoke FetchHistoricalConsumption;
                       EvApi (request_of FetchHistoricalConsumption st)]),
       Raise e)
  end.
Proof.
  unfold get_historical_consumption_data, window_start, window_end.
  unfold_monad. simpl.
  destruct (api_get_historical_consumption _ _ (world st)) as [[m|e] w];
    simpl; by rewrite <- ?app_assoc.
Qed.

Lemma get_historical_generation_data_run (st : State W) :
  get_historical_generation_data st =
  match api_get_historical_generation (window_start st) (window_end st)
          (world st) with
  | (answer, w) =>
      (mk_State (self st) (heap st) w
         (trace st ++ [EvInvoke FetchHistoricalGeneration;
                       EvApi (request_of FetchHistoricalGeneration st)]),
       match answer with
       | Ok _ => Raise NotImplementedError
       | Raise e => Raise e
       end)
  end.
Proof.
  unfold get_historical_generation_data, window_start, window_end.
  unfold_monad. simpl.
  destruct (api_get_historical_generation _ _ (world st)) as [[m|e] w];
    simpl; by rewrite <- ?app_assoc.
Qed.

Lemma get_historical_power_demand_data_run (st : State W) :
  get_historical_power_demand_data st =
  match api_get_historical_power_demand (world st) with
  | (Ok h, w) =>
      (mk_State (self st) (heap st) w
         (trace st ++ [EvInvoke FetchHistoricalPowerDemand;
                       EvApi ApiGetHistoricalPowerDemand;
                       EvReturn FetchHistoricalPowerDemand]),
       Ok {[DATA_ATTR_HISTORICAL_POWER_DEMAND :=
              VHistoricalPowerDemand
                {| hpd_demands := normalize_dated_item <$> hpd_demands h;
                   hpd_other := hpd_other h |}]})
  | (Raise e, w) =>
      (mk_State (self st) (heap st) w
         (trace st ++ [EvInvoke FetchHistoricalPowerDemand;
                       EvApi ApiGetHistoricalPowerDemand]),
       Raise e)
  end.
Proof.
  unfold get_historical_power_demand_data. unfold_monad. simpl.
  destruct (api_get_historical_power_demand (world st)) as [[m|e] w]; simpl;
    by rewrite <- ?app_assoc.
Qed.

(** Every pass through the dispatch is one of the three outcomes. *)
Lemma fetch_sound (d : DataSetType) (st : State W) :
  fetch_outcome st d (fetch d st).1 (fetch d st).2.
Proof.
  destruct d; unfold fetch; rewrite ?bind_run.
  - apply fetch_else. by left.
  - rewrite get_direct_reading_data_run.
    destruct (api_get_measure (world st)) as [[m|e] w]; simpl.
    + apply (fetch_returned _ _ FetchDirectReading); [done..|].
      intros k [v Hk]. simpl.
      destruct (decide (k = DATA_ATTR_MEASURE_INSTANT)) as [->|];
        [set_solver|].
      rewrite lookup_insert_ne in Hk by done.
      destruct (decide (k = DATA_ATTR_MEASURE_ACCUMULATED)) as [->|];
        [set_solver|].
      by rewrite lookup_insert_ne in Hk.
    + by apply (fetch_raised _ _ FetchDirectReading).
  - rewrite get_historical_consumption_data_run.
    destruct (api_get_historical_consumption _ _ (world st)) as [[m|e] w];
      simpl.
    + apply (fetch_returned _ _ FetchHistoricalConsumption); [done..|].
      intros k [v Hk]. simpl.
      apply lookup_singleton_Some in Hk as [<- _]. set_solver.
    + by apply (fetch_raised _ _ FetchHistoricalConsumption).
  - rewrite get_historical_generation_data_run.
    destruct (api_get_historical_generation _ _ (world st)) as [[m|e] w];
      simpl; by apply (fetch_raised _ _ FetchHistoricalGeneration).
  - rewrite get_historical_power_demand_data_run.
    destruct (api_get_historical_power_demand (world st)) as [[m|e] w];
      simpl.
    + apply (fetch_returned _ _ FetchHistoricalPowerDemand); [done..|].
      intros k [v Hk]. simpl.
      apply lookup_singleton_Some in Hk as [<- _]. set_solver.
    + by apply (fetch_raised _ _ FetchHistoricalPowerDemand).
  - apply fetch_else. by right.
Qed.

(** ** The loop, run *)

Lemma fetch_outcome_frame (st stf : State W) d r :
  fetch_outcome st d stf r → self stf = self st ∧ heap stf = heap st.
Proof. by destruct 1. Qed.

Lemma Barrier_check_cases (b : Barrier) (now : Z) :
  Barrier_check b now = Ok () ∨
  ∃ reason, Barrier_check b now = Raise (BarrierDeniedError reason).
Proof.
  unfold Barrier_check. destruct (last_success b); [|by left].
  case_match; [right; eauto | by left].
Qed.

(** Every iteration is one of the six steps. *)
Lemma body_sound (d : DataSetType) (data : gmap string Value)
    (st st' : State W) (r : result (gmap string Value)) :
  for_dataset_body d data st = (st', r) → body_step d data st st' r.
Proof.
  unfold for_dataset_body. rewrite bind_run.
  unfold try at 1, barrier_check.
  destruct (barriers (self st) !! value d) as [l|] eqn:Hl; simpl.
  2: { intros [= <- <-]. by apply step_no_barrier. }
  destruct (Barrier_check_cases (heap st l) (clock_barrier (world st)))
    as [Hc|[reason Hc]]; rewrite Hc; simpl.
  2: { rewrite bind_run. unfold log, emit; simpl. rewrite <- app_assoc.
       intros [= <- <-].
       by apply (step_denied _ _ _ l). }
  rewrite !bind_run. unfold log at 1, emit; simpl.
  rewrite <- app_assoc; simpl.
  set (st2 := mk_State _ _ _ _).
  change st2 with
    (add_events [EvBarrierCheck d (Ok ()); EvLog (LogAllowed d)] st).
  clear st2.
  set (st2 := add_events _ st).
  pose proof (fetch_sound d st2) as Hf.
  rewrite bind_run. unfold try.
  destruct (fetch d st2) as [stf rf]; simpl in Hf.
  destruct (fetch_outcome_frame _ _ _ _ Hf) as [Hself Hheap].
  destruct rf as [[fragment|]|e].
  - rewrite !bind_run. unfold barrier_success.
    rewrite Hself. change (self st2) with (self st). rewrite Hl; simpl.
    rewrite Hheap. change (heap st2) with (heap st).
    rewrite bind_run. unfold log, emit; simpl. rewrite <- app_assoc; simpl.
    intros [= <- <-]. by apply (step_fetched _ _ _ l stf fragment).
  - intros [= <- <-]. by apply (step_not_dispatched _ _ _ l).
  - destruct (is_Exception e) eqn:He.
    + assert (Hgoal :
        body_step d data st (add_events [EvLog (error_log d e)] stf)
          (Ok data)) by by apply (step_fetch_caught _ _ _ l stf e).
      destruct e; try discriminate He; intros [= <- <-]; exact Hgoal.
    + destruct e; try discriminate He.
      intros [= <- <-]. by apply (step_fetch_escaped _ _ _ l stf).
Qed.

Lemma for_dataset_in_sound (ds : list DataSetType)
    (data : gmap string Value) (st st' : State W)
    (r : result (gmap string Value)) :
  for_dataset_in ds data st = (st', r) → loop_run ds data st st' r.
Proof.
  revert data st. induction ds as [|d rest IH]; intros data st; simpl.
  - intros [= <- <-]. apply loop_done.
  - rewrite bind_run.
    destruct (for_dataset_body d data st) as [st1 [data1|e]] eqn:Hb;
      apply body_sound in Hb.
    + intros Hrest. eapply loop_next; [exact Hb | by apply IH].
    + intros [= <- <-]. by apply loop_abort.
Qed.

(** ** From runs to traces *)

(** An iteration adds the events of one way through the loop body; and
    either it leaves the barriers and the accumulated dictionary alone and
    records no success, or it records a success on the dataset's barrier and
    adds a fragment made of the dataset's own slots. *)
Lemma body_step_summary d data (st st' : State W) r :
  body_step d data st st' r →
  ∃ tr, trace st' = trace st ++ tr ∧ self st' = self st ∧
        iteration_events (barriers (self st)) d tr ∧
        ((heap st' = heap st ∧
          (r = Ok data ∨ ∃ e, r = Raise e ∧ is_Exception e = false) ∧
          EvBarrierSuccess d ∉ tr)
         ∨
         (∃ l fragment,
            barriers (self st) !! value d = Some l ∧
            (∀ l', l' ≠ l → heap st' l' = heap st l') ∧
            r = Ok (dict_update data fragment) ∧
            (∀ k, is_Some (fragment !! k) → k ∈ slots d) ∧
            EvBarrierSuccess d ∈ tr)).
Proof.
  set (st2 := add_events [EvBarrierCheck d (Ok ()); EvLog (LogAllowed d)] st).
  destruct 1 as [Hl|l reason Hl Hc|l stf e Hl Hf He|l stf e Hl Hf He
                 |l stf Hl Hf|l stf fragment Hl Hf].
  - eexists; split_and!; [done..|by apply ie_ignored|].
    left. split_and!; [done | by left |]. intros ?; elem_cases; done.
  - eexists; split_and!; [done..|by apply ie_denied|].
    left. split_and!; [done | by left |]. intros ?; elem_cases; done.
  - inversion Hf as [|f w e' Hd|]; subst; simpl.
    exists [EvBarrierCheck (routine_dataset f) (Ok ());
            EvLog (LogAllowed (routine_dataset f));
            EvInvoke f; EvApi (request_of f st2);
            EvLog (error_log (routine_dataset f) e)].
    split_and!; [by rewrite <- !app_assoc | done | by apply ie_caught |].
    left. split_and!; [done | by left |]. intros ?; elem_cases; done.
  - inversion Hf as [|f w e' Hd|]; subst; simpl.
    exists [EvBarrierCheck (routine_dataset f) (Ok ());
            EvLog (LogAllowed (routine_dataset f));
            EvInvoke f; EvApi (request_of f st2)].
    split_and!; [by rewrite <- !app_assoc | done | by apply ie_escaped |].
    left. split_and!; [done | right; eauto |]. intros ?; elem_cases; done.
  - inversion Hf as [| |Hd]; subst; simpl.
    exists [EvBarrierCheck d (Ok ()); EvLog (LogAllowed d);
            EvLog (LogIgnoredNotImplemented d)].
    split_and!;
      [by rewrite <- !app_assoc | done | by apply ie_not_dispatched |].
    left. split_and!; [done | by left |]. intros ?; elem_cases; done.
  - inversion Hf as [f w fragment' Hd Hf' Hk| |]; subst; simpl.
    exists [EvBarrierCheck (routine_dataset f) (Ok ());
            EvLog (LogAllowed (routine_dataset f));
            EvInvoke f; EvApi (request_of f st2); EvReturn f;
            EvBarrierSuccess (routine_dataset f);
            EvLog (LogSuccessful (routine_dataset f))].
    split_and!; [by rewrite <- !app_assoc | done | by apply ie_fetched |].
    right. exists l, fragment. split_and!; [done | | done.. | elem_solve].
    intros l' Hne. by rewrite fn_lookup_insert_ne.
Qed.

(** The same for the whole loop: its events are those of its iterations,
    a barrier object on which no success was recorded is as it was, the
    loop never ends with an exception of class [Exception], and every key of
    the dictionary it returns was there at the start or is a slot of a
    dataset with a success recorded. *)
Lemma loop_run_summary ds data (st st' : State W) r :
  loop_run ds data st st' r →
  ∃ tr, trace st' = trace st ++ tr ∧ self st' = self st ∧
        loop_events (barriers (self st)) ds tr ∧
        (∀ l, (∀ d, d ∈ ds → barriers (self st) !! value d = Some l →
                    EvBarrierSuccess d ∉ tr) →
              heap st' l = heap st l) ∧
        match r with
        | Ok updated =>
            ∀ k, is_Some (updated !! k) →
                 is_Some (data !! k) ∨
                 ∃ d, d ∈ ds ∧ k ∈ slots d ∧ EvBarrierSuccess d ∈ tr
        | Raise e => is_Exception e = false
        end.
Proof.
  induction 1 as [data st|d rest data st data1 st1 st' r Hb Hrest IH
                  |d rest data st st1 e Hb].
  - exists []. split_and!;
      [by rewrite app_nil_r | done | apply le_stop | done | by left].
  - apply body_step_summary in Hb as (tr_d & Etr & Eself & Hd & Hstate).
    destruct IH as (tr_rest & Etr' & Eself' & Hr & Hheap & Hres).
    rewrite Eself in Hr, Hheap.
    exists (tr_d ++ tr_rest). split_and!.
    + by rewrite Etr', Etr, app_assoc.
    + congruence.
    + by apply le_iteration.
    + intros l Hquiet. rewrite Hheap.
      * destruct Hstate as [(-> & _ & _)|(l0 & fr & Hl0 & Hother & _ & _ & Hs)];
          [done|].
        apply Hother. intros ->.
        apply (Hquiet d); [left | done | apply elem_of_app; by left].
      * intros d' Hin Hl' Hs. apply (Hquiet d'); [by right | done |].
        apply elem_of_app; by right.
    + destruct Hstate as [(_ & Hsame & _)|(l0 & fr & _ & _ & Hdata & Hkeys & Hs)].
      * destruct Hsame as [[= <-]|(e & ? & _)]; [|done].
        destruct r as [updated|e]; [|done].
        intros k Hk. destruct (Hres k Hk) as [?|(d' & ? & ? & ?)]; [by left|].
        right. exists d'. split_and!; [by right | done |].
        apply elem_of_app; by right.
      * injection Hdata as ->.
        destruct r as [updated|e]; [|done].
        intros k Hk. destruct (Hres k Hk) as [Hk'|(d' & ? & ? & ?)].
        -- unfold dict_update in Hk'.
           apply lookup_union_is_Some in Hk' as [Hk'|Hk']; [|by left].
           right. exists d. split_and!; [left | by apply Hkeys |].
           apply elem_of_app; by left.
        -- right. exists d'. split_and!; [by right | done |].
           apply elem_of_app; by right.
  - apply body_step_summary in Hb as (tr_d & Etr & Eself & Hd & Hstate).
    exists (tr_d ++ []). split_and!.
    + by rewrite app_nil_r.
    + done.
    + apply le_iteration; [done | apply le_stop].
    + intros l Hquiet.
      destruct Hstate as [(-> & _ & _)|(l0 & fr & Hl0 & Hother & _ & _ & Hs)];
        [done|].
      apply Hother. intros ->.
      apply (Hquiet d); [left | done | apply elem_of_app; by left].
    + destruct Hstate as [(_ & Hsame & _)|(l0 & fr & _ & _ & Hdata & _)];
        [|done].
      destruct Hsame as [?|(e' & [= <-] & ?)]; done.
Qed.

(** ** Whose events *)

Lemma request_of_dataset f (st : State W) :
  api_dataset (request_of f st) = routine_dataset f.
Proof. by destruct f. Qed.

Lemma error_log_dataset d e : log_dataset (error_log d e) = Some d.
Proof. by destruct e. Qed.

Lemma iteration_events_about bs d tr :
  iteration_events bs d tr → Forall (λ e, ev_dataset e = Some d) tr.
Proof.
  destruct 1; subst; repeat constructor; simpl;
    rewrite ?request_of_dataset, ?error_log_dataset; done.
Qed.

Lemma loop_events_about bs ds tr :
  loop_events bs ds tr →
  Forall (λ e, ∃ d, d ∈ ds ∧ ev_dataset e = Some d) tr.
Proof.
  induction 1 as [|d rest tr_d tr_rest Hd Hr IH]; [constructor|].
  apply Forall_app; split.
  - eapply Forall_impl; [by eapply iteration_events_about|].
    intros e He. exists d. split; [left | done].
  - eapply Forall_impl; [exact IH|].
    intros e (d' & Hin & He). exists d'. split; [by right | done].
Qed.

Lemma events_about_all d tr :
  Forall (λ e, ev_dataset e = Some d) tr → events_about d tr = tr.
Proof.
  unfold events_about. induction 1 as [|e tr He Htr IH]; [done|].
  by rewrite filter_cons_True, IH.
Qed.

Lemma events_about_none d tr :
  Forall (λ e, ev_dataset e ≠ Some d) tr → events_about d tr = [].
Proof.
  unfold events_about. induction 1 as [|e tr He Htr IH]; [done|].
  by rewrite filter_cons_False.
Qed.

Lemma elem_of_events_about d e tr :
  e ∈ events_about d tr ↔ ev_dataset e = Some d ∧ e ∈ tr.
Proof.
  unfold events_about.
  apply (list_elem_of_filter (λ e, ev_dataset e = Some d)).
Qed.

(** In a loop over distinct datasets, the events about [d] are the events
    of the one iteration over [d], if there are any. *)
Lemma loop_events_project bs ds tr d :
  NoDup ds → loop_events bs ds tr →
  events_about d tr = [] ∨
  (d ∈ ds ∧ iteration_events bs d (events_about d tr)).
Proof.
  intros Hnd Hl. induction Hl as [|d0 rest tr_d tr_rest Hd Hr IH];
    [by left|].
  apply NoDup_cons in Hnd as [Hnotin Hnd].
  unfold events_about. rewrite filter_app.
  fold (events_about d tr_d) (events_about d tr_rest).
  pose proof (iteration_events_about _ _ _ Hd) as Habout.
  destruct (decide (d = d0)) as [->|Hne].
  - rewrite (events_about_all d0 tr_d) by done.
    rewrite (events_about_none d0 tr_rest), app_nil_r.
    + right. split; [left | done].
    + eapply Forall_impl; [by eapply loop_events_about|].
      intros e (d' & Hin & He) He'. congruence.
  - rewrite (events_about_none d tr_d); simpl.
    + destruct (IH Hnd) as [?|[? ?]]; [by left|].
      right. split; [by right | done].
    + eapply Forall_impl; [exact Habout|]. intros e He He'. congruence.
Qed.

(** ** One iteration's events *)

Lemma error_log_not_ignored d d' e :
  error_log d e ≠ LogIgnoredNotImplemented d'.
Proof. by destruct e. Qed.

Lemma iteration_success_iff bs d tr d' :
  iteration_events bs d tr →
  EvBarrierSuccess d' ∈ tr ↔
  EvBarrierCheck d' (Ok ()) ∈ tr ∧
  ∃ f, routine_dataset f = d' ∧ EvReturn f ∈ tr.
Proof.
  destruct 1 as [?|reason ?|f st e ? <- ?|f st ? <-|? ?|f st ? <- ?]; split.
  all: try (intros Hin; elem_cases; discriminate).
  all: try (intros [Hin (f' & Hf' & Hin')]; elem_cases; discriminate).
  - intros Hin; elem_cases; try discriminate.
    injection Hin as ->. split; [elem_solve|].
    exists f. split; [done | elem_solve].
  - intros [Hin _]. elem_cases; try discriminate.
    injection Hin as ->. elem_solve.
Qed.

Lemma iteration_no_barrier bs d tr :
  iteration_events bs d tr → bs !! value d = None →
  tr = [EvLog (LogIgnoredNoBarrier d)].
Proof.
  destruct 1 as [?|? Hs|? ? ? Hs|? ? Hs|Hs|? ? Hs]; intros Hn; [done|..];
    rewrite Hn in Hs; by destruct Hs.
Qed.

Lemma iteration_return_not_generation bs d tr :
  iteration_events bs d tr → EvReturn FetchHistoricalGeneration ∉ tr.
Proof.
  destruct 1; intros Hin; elem_cases; try discriminate.
  congruence.
Qed.

Lemma iteration_allowed_invokes bs d tr :
  iteration_events bs d tr →
  d ≠ NONE → d ≠ ALL →
  EvBarrierCheck d (Ok ()) ∈ tr →
  ∃ f st, routine_dataset f = d ∧
          [EvInvoke f; EvApi (request_of f st)] ⊆ tr.
Proof.
  destruct 1 as [?|reason ?|f st e ? Hf ?|f st ? Hf|? [?|?]|f st ? Hf ?];
    intros Hn Ha Hin; try done.
  1,2: elem_cases; discriminate.
  all: exists f, st; split; [done|];
    intros x Hx; elem_cases; subst x; elem_solve.
Qed.

Lemma iteration_not_implemented bs d tr d' :
  iteration_events bs d tr →
  EvLog (LogIgnoredNotImplemented d') ∈ tr → d = NONE ∨ d = ALL.
Proof.
  destruct 1 as [?|reason ?|f st e ? Hf ?|f st ? Hf|? ?|f st ? Hf ?];
    intros Hin; try done; elem_cases; try discriminate.
  injection Hin as Hin. by apply symmetry, error_log_not_ignored in Hin.
Qed.

Lemma iteration_invoke_after_check bs d tr f :
  iteration_events bs d tr →
  EvInvoke f ∈ tr →
  routine_dataset f = d ∧ is_Some (bs !! value d) ∧
  EvBarrierCheck d (Ok ()) ∈ tr.
Proof.
  destruct 1 as [?|reason ?|f' st e ? Hf ?|f' st ? Hf|? ?|f' st ? Hf ?];
    intros Hin; elem_cases; try discriminate.
  all: injection Hin as ->; split_and!; [done..|elem_solve].
Qed.

Lemma iteration_api_after_invoke bs d tr c :
  iteration_events bs d tr →
  EvApi c ∈ tr →
  ∃ f st, c = request_of f st ∧ routine_dataset f = d ∧ EvInvoke f ∈ tr.
Proof.
  destruct 1 as [?|reason ?|f' st e ? Hf ?|f' st ? Hf|? ?|f' st ? Hf ?];
    intros Hin; elem_cases; try discriminate.
  all: injection Hin as ->; exists f', st; split_and!; [done..|elem_solve].
Qed.

Lemma iteration_check_has_barrier bs d tr d' o :
  iteration_events bs d tr →
  EvBarrierCheck d' o ∈ tr → d' = d ∧ is_Some (bs !! value d).
Proof.
  destruct 1; intros Hin; elem_cases; try discriminate;
    by injection Hin as -> _.
Qed.

(** ** The requested datasets *)

Lemma requested_canonical (datasets : Z) :
  requested_from DataSetType_canonical datasets = requested datasets.
Proof. reflexivity. Qed.

Lemma requested_spec (datasets : Z) (x : DataSetType) :
  x ∈ requested datasets ↔
  x ∈ DataSetType_canonical ∧ Z.land (value x) datasets ≠ 0.
Proof.
  rewrite <- requested_canonical. unfold requested_from.
  rewrite (list_elem_of_filter (λ x, Z.land (value x) datasets ≠ 0)).
  split; intros [? ?]; done.
Qed.

Lemma NoDup_canonical : NoDup DataSetType_canonical.
Proof. apply (bool_decide_unpack _). by compute. Qed.

Lemma NoDup_requested (datasets : Z) : NoDup (requested datasets).
Proof.
  rewrite <- requested_canonical. unfold requested_from.
  apply NoDup_filter, NoDup_canonical.
Qed.

Lemma requested_concrete (datasets : Z) (x : DataSetType) :
  x ∈ requested datasets → x ≠ NONE ∧ x ≠ ALL.
Proof.
  intros [Hx _]%requested_spec. unfold DataSetType_canonical in Hx.
  elem_cases; by subst.
Qed.

(** ** A loop's events *)

Lemma loop_events_dataset bs ds tr d :
  NoDup ds → loop_events bs ds tr →
  ∃ tr_d, (tr_d = [] ∨ (d ∈ ds ∧ iteration_events bs d tr_d)) ∧
          ∀ e, ev_dataset e = Some d → (e ∈ tr ↔ e ∈ tr_d).
Proof.
  intros Hnd Hl. exists (events_about d tr).
  split; [by apply loop_events_project|].
  intros e He. rewrite elem_of_events_about. tauto.
Qed.

Lemma loop_success_iff bs ds tr d :
  NoDup ds → loop_events bs ds tr →
  EvBarrierSuccess d ∈ tr ↔
  EvBarrierCheck d (Ok ()) ∈ tr ∧
  ∃ f, routine_dataset f = d ∧ EvReturn f ∈ tr.
Proof.
  intros Hnd Hl.
  destruct (loop_events_dataset _ _ _ d Hnd Hl) as (tr_d & Htr_d & Hin).
  rewrite (Hin (EvBarrierSuccess d)), (Hin (EvBarrierCheck d _)) by done.
  assert (Hret : (∃ f, routine_dataset f = d ∧ EvReturn f ∈ tr) ↔
                 (∃ f, routine_dataset f = d ∧ EvReturn f ∈ tr_d)).
  { split; intros (f & Hf & Hr); exists f; (split; [done|]);
      apply (Hin (EvReturn f)); simpl; congruence. }
  rewrite Hret.
  destruct Htr_d as [->|[_ Hi]]; [|by eapply iteration_success_iff].
  split; [intros ?%elem_of_nil | intros [?%elem_of_nil _]]; done.
Qed.

Lemma loop_no_barrier bs ds tr d e :
  NoDup ds → loop_events bs ds tr →
  bs !! value d = None →
  e ∈ tr → ev_dataset e = Some d → e = EvLog (LogIgnoredNoBarrier d).
Proof.
  intros Hnd Hl Hbs Hin He.
  destruct (loop_events_dataset _ _ _ d Hnd Hl) as (tr_d & Htr_d & Hiff).
  apply Hiff in Hin; [|done].
  destruct Htr_d as [->|[_ Hi]]; [by apply elem_of_nil in Hin|].
  rewrite (iteration_no_barrier _ _ _ Hi Hbs) in Hin.
  by apply list_elem_of_singleton in Hin.
Qed.

Lemma loop_no_generation_return bs ds tr :
  NoDup ds → loop_events bs ds tr →
  EvReturn FetchHistoricalGeneration ∉ tr.
Proof.
  intros Hnd Hl Hin.
  destruct (loop_events_dataset _ _ _ HISTORICAL_GENERATION Hnd Hl)
    as (tr_d & Htr_d & Hiff).
  apply Hiff in Hin; [|done].
  destruct Htr_d as [->|[_ Hi]]; [by apply elem_of_nil in Hin|].
  by eapply iteration_return_not_generation.
Qed.

Lemma loop_allowed_invokes bs ds tr d :
  NoDup ds → loop_events bs ds tr →
  d ≠ NONE → d ≠ ALL →
  EvBarrierCheck d (Ok ()) ∈ tr →
  ∃ f st, routine_dataset f = d ∧
          EvInvoke f ∈ tr ∧ EvApi (request_of f st) ∈ tr.
Proof.
  intros Hnd Hl Hn Ha Hin.
  destruct (loop_events_dataset _ _ _ d Hnd Hl) as (tr_d & Htr_d & Hiff).
  apply Hiff in Hin; [|done].
  destruct Htr_d as [->|[_ Hi]]; [by apply elem_of_nil in Hin|].
  destruct (iteration_allowed_invokes _ _ _ Hi Hn Ha Hin)
    as (f & st & Hf & Hsub).
  exists f, st. split_and!; [done|..].
  - apply Hiff; [simpl; congruence|]. apply Hsub. elem_solve.
  - apply Hiff; [simpl; by rewrite request_of_dataset, Hf|].
    apply Hsub. elem_solve.
Qed.

Lemma loop_invoke_after_check bs ds tr f :
  NoDup ds → loop_events bs ds tr →
  EvInvoke f ∈ tr →
  routine_dataset f ∈ ds ∧ is_Some (bs !! value (routine_dataset f)) ∧
  EvBarrierCheck (routine_dataset f) (Ok ()) ∈ tr.
Proof.
  intros Hnd Hl Hin.
  destruct (loop_events_dataset _ _ _ (routine_dataset f) Hnd Hl)
    as (tr_d & Htr_d & Hiff).
  apply Hiff in Hin; [|done].
  destruct Htr_d as [->|[Hds Hi]]; [by apply elem_of_nil in Hin|].
  destruct (iteration_invoke_after_check _ _ _ _ Hi Hin) as (_ & Hs & Hc).
  split_and!; [done..|]. by apply Hiff.
Qed.

Lemma loop_api_after_invoke bs ds tr c :
  NoDup ds → loop_events bs ds tr →
  EvApi c ∈ tr →
  ∃ f st, c = request_of f st ∧ EvInvoke f ∈ tr.
Proof.
  intros Hnd Hl Hin.
  destruct (loop_events_dataset _ _ _ (api_dataset c) Hnd Hl)
    as (tr_d & Htr_d & Hiff).
  apply Hiff in Hin; [|done].
  destruct Htr_d as [->|[Hds Hi]]; [by apply elem_of_nil in Hin|].
  destruct (iteration_api_after_invoke _ _ _ _ Hi Hin)
    as (f & st & -> & Hf & Hinv).
  exists f, st. split; [done|].
  apply Hiff; [simpl; by rewrite Hf, request_of_dataset | done].
Qed.

Lemma loop_check_has_barrier bs ds tr d o :
  NoDup ds → loop_events bs ds tr →
  EvBarrierCheck d o ∈ tr → d ∈ ds ∧ is_Some (bs !! value d).
Proof.
  intros Hnd Hl Hin.
  destruct (loop_events_dataset _ _ _ d Hnd Hl) as (tr_d & Htr_d & Hiff).
  apply Hiff in Hin; [|done].
  destruct Htr_d as [->|[Hds Hi]]; [by apply elem_of_nil in Hin|].
  split; [done|]. by eapply iteration_check_has_barrier.
Qed.

Lemma loop_dispatch_reached bs ds tr d :
  loop_events bs ds tr →
  (∀ x, x ∈ ds → x ≠ NONE ∧ x ≠ ALL) →
  EvLog (LogIgnoredNotImplemented d) ∉ tr.
Proof.
  induction 1 as [|d0 rest tr_d tr_rest Hd Hr IH]; intros Hds Hin;
    [by apply elem_of_nil in Hin|].
  apply elem_of_app in Hin as [Hin|Hin].
  - destruct (Hds d0) as [? ?]; [left|].
    by destruct (iteration_not_implemented _ _ _ _ Hd Hin).
  - apply IH; [|done]. intros x Hx. apply Hds. by right.
Qed.

(** ** A raw update *)

(** A raw update either stops at the timestamp, or runs the loop over the
    requested datasets from an empty dictionary. *)
Lemma raw_update_cases datasets now (st st' : State W) r :
  _async_update_data_raw datasets now st = (st', r) →
  (∃ n, now = Some n ∧ ne_timezone_utc (dt_tzinfo n) = true ∧
        st' = st ∧ r = Raise (ValueError "now is missing tzinfo field"))
  ∨
  ((∀ n, now = Some n → ne_timezone_utc (dt_tzinfo n) = false) ∧
   loop_run (requested datasets) ∅ st st' r).
Proof.
  unfold _async_update_data_raw. rewrite bind_run.
  destruct now as [n|]; unfold dt_util_utcnow, mret, M_ret; simpl.
  - destruct (ne_timezone_utc (dt_tzinfo n)) eqn:Htz.
    + intros [= <- <-]. left. by exists n.
    + intros Hloop%for_dataset_in_sound. right.
      split; [|done]. by intros ? [= <-].
  - intros Hloop%for_dataset_in_sound. right. by split.
Qed.

Lemma raw_update_summary datasets now (st st' : State W) r :
  _async_update_data_raw datasets now st = (st', r) →
  ∃ tr, trace st' = trace st ++ tr ∧ self st' = self st ∧
        loop_events (barriers (self st)) (requested datasets) tr ∧
        (∀ l, (∀ d, barriers (self st) !! value d = Some l →
                    EvBarrierSuccess d ∉ tr) →
              heap st' l = heap st l) ∧
        match r with
        | Ok updated =>
            ∀ k, is_Some (updated !! k) →
                 ∃ d, d ∈ requested datasets ∧ k ∈ slots d ∧
                      EvBarrierSuccess d ∈ tr
        | Raise e =>
            is_Exception e = false ∨
            (tr = [] ∧ st' = st ∧
             e = ValueError "now is missing tzinfo field" ∧
             ∃ n, now = Some n ∧ ne_timezone_utc (dt_tzinfo n) = true)
        end.
Proof.
  intros [(n & -> & Htz & -> & ->)|[_ Hloop]]%raw_update_cases.
  - exists []. split_and!;
      [by rewrite app_nil_r | done | apply le_stop | done |].
    right. split_and!; [done..|]. by exists n.
  - apply loop_run_summary in Hloop
      as (tr & Etr & Eself & Hev & Hheap & Hres).
    exists tr. split_and!; [done..| |].
    + intros l Hquiet. apply Hheap. intros d _. apply Hquiet.
    + destruct r as [updated|e]; [|by left].
      intros k Hk. destruct (Hres k Hk) as [[v Hv]|?]; [|done].
      by rewrite lookup_empty in Hv.
Qed.

(** The events a raw update adds. *)
Lemma raw_update_events datasets now (st : State W) :
  let st' := (_async_update_data_raw datasets now st).1 in
  trace st' = trace st ++ new_events st st' ∧
  self st' = self st ∧
  loop_events (barriers (self st)) (requested datasets) (new_events st st').
Proof.
  destruct (_async_update_data_raw datasets now st) as [st' r] eqn:E; simpl.
  apply raw_update_summary in E as (tr & Etr & Eself & Hev & _).
  by rewrite (new_events_app _ _ _ Etr).
Qed.

(** ** Several raw updates *)

Lemma run_ticks_events ticks (st : State W) :
  self (run_ticks ticks st) = self st ∧
  ∃ trs : list (list Event),
    trace (run_ticks ticks st) = trace st ++ concat trs ∧
    Forall (λ tr, ∃ datasets,
              loop_events (barriers (self st)) (requested datasets) tr) trs.
Proof.
  revert st. induction ticks as [|[datasets now] rest IH]; intros st; simpl.
  - split; [done|]. exists []. split; [by rewrite app_nil_r | constructor].
  - destruct (raw_update_events datasets now st) as (Etr & Eself & Hev).
    destruct (IH (_async_update_data_raw datasets now st).1)
      as (Eself' & trs & Etr' & Hall).
    split; [congruence|].
    exists (new_events st (_async_update_data_raw datasets now st).1 :: trs).
    split.
    + simpl. by rewrite Etr', Etr, app_assoc.
    + constructor; [by exists datasets|]. by rewrite Eself in Hall.
Qed.

(** ** The snapshot keys *)

Lemma slots_disjoint d d' k :
  distinct_slots → k ∈ slots d → k ∈ slots d' → d = d'.
Proof.
  unfold distinct_slots. intros Hnd.
  repeat match goal with
    | H : NoDup (_ :: _) |- _ => apply NoDup_cons in H as [? H]
    end.
  repeat match goal with
    | H : _ ∉ _ :: _ |- _ => apply not_elem_of_cons in H as [? H]
    end.
  destruct d, d'; simpl; intros Hk Hk'; elem_cases; congruence.
Qed.

(** ** The loop body, branch by branch *)

Lemma body_no_barrier_run d data (st : State W) :
  barriers (self st) !! value d = None →
  for_dataset_body d data st =
  (add_events [EvLog (LogIgnoredNoBarrier d)] st, Ok data).
Proof.
  intros Hl. unfold for_dataset_body. rewrite bind_run.
  unfold try at 1, barrier_check. by rewrite Hl.
Qed.

Lemma body_denied_run d data (st : State W) l reason :
  barriers (self st) !! value d = Some l →
  Barrier_check (heap st l) (clock_barrier (world st))
    = Raise (BarrierDeniedError reason) →
  for_dataset_body d data st =
  (add_events [EvBarrierCheck d (Raise (BarrierDeniedError reason));
               EvLog (LogDenied d reason)] st, Ok data).
Proof.
  intros Hl Hc. unfold for_dataset_body. rewrite bind_run.
  unfold try at 1, barrier_check. rewrite Hl; simpl. rewrite Hc; simpl.
  rewrite bind_run. unfold log, emit, add_events; simpl.
  by rewrite <- app_assoc.
Qed.

Lemma body_allowed_run d data (st : State W) l :
  barriers (self st) !! value d = Some l →
  Barrier_check (heap st l) (clock_barrier (world st)) = Ok () →
  for_dataset_body d data st =
  match fetch d (add_events [EvBarrierCheck d (Ok ()); EvLog (LogAllowed d)]
                   st) with
  | (stf, Ok (Some fragment)) =>
      (mk_State (self st)
         (<[l := Barrier_success (heap st l) (clock_barrier (world stf))]>
            (heap st))
         (world stf)
         (trace stf ++ [EvBarrierSuccess d; EvLog (LogSuccessful d)]),
       Ok (dict_update data fragment))
  | (stf, Ok None) => (stf, Ok data)
  | (stf, Raise e) =>
      if is_Exception e
      then (add_events [EvLog (error_log d e)] stf, Ok data)
      else (stf, Raise e)
  end.
Proof.
  intros Hl Hc. unfold for_dataset_body. rewrite bind_run.
  unfold try at 1, barrier_check. rewrite Hl; simpl. rewrite Hc; simpl.
  rewrite !bind_run. unfold log at 1, emit; simpl.
  rewrite <- app_assoc; simpl.
  set (st2 := mk_State _ _ _ _).
  change (add_events _ st) with st2.
  pose proof (fetch_sound d st2) as Hf.
  rewrite bind_run. unfold try.
  destruct (fetch d st2) as [stf rf]; simpl in Hf.
  destruct (fetch_outcome_frame _ _ _ _ Hf) as [Hself Hheap].
  destruct rf as [[fragment|]|e]; [|done|].
  - rewrite !bind_run. unfold barrier_success.
    rewrite Hself. change (self st2) with (self st). rewrite Hl; simpl.
    rewrite Hheap. change (heap st2) with (heap st).
    rewrite bind_run. unfold log, emit; simpl. by rewrite <- app_assoc.
  - by destruct e.
Qed.

(** ** The datasets the sensors ask for *)

Lemma union_of_app (a b : list DataSetType) :
  union_of (a ++ b) = Z.lor (union_of a) (union_of b).
Proof.
  induction a as [|x a IH]; simpl; [done|].
  by rewrite IH, Z.lor_assoc.
Qed.

Lemma foldl_lor (l : list DataSetType) (acc : Z) :
  foldl (λ ds s_ds, Z.lor ds (value s_ds)) acc l = Z.lor acc (union_of l).
Proof.
  revert acc. induction l as [|x l IH]; intros acc; simpl.
  - by rewrite Z.lor_0_r.
  - by rewrite IH, Z.lor_assoc.
Qed.

Lemma foldl_sensors (l : list IDeEntity) (acc : Z) :
  foldl (λ ds sensor,
           foldl (λ ds s_ds, Z.lor ds (value s_ds)) ds (I_DE_DATA_SETS sensor))
    acc l
  = Z.lor acc (union_of (declared l)).
Proof.
  revert acc. induction l as [|s l IH]; intros acc; simpl.
  - by rewrite Z.lor_0_r.
  - rewrite IH, foldl_lor. unfold declared; simpl.
    by rewrite union_of_app, Z.lor_assoc.
Qed.

Lemma union_of_testbit (l : list DataSetType) (i : Z) :
  Z.testbit (union_of l) i = true ↔
  ∃ x, x ∈ l ∧ Z.testbit (value x) i = true.
Proof.
  induction l as [|x l IH]; simpl.
  - rewrite Z.bits_0. split; [done|]. by intros (x & ?%elem_of_nil & _).
  - rewrite Z.lor_spec, orb_true_iff, IH. split.
    + intros [Hx|(y & Hy & Hb)]; [exists x | exists y];
        (split; [|done]); [left | by right].
    + intros (y & [->|Hy]%elem_of_cons & Hb); [by left|].
      right. by exists y.
Qed.

Lemma elem_of_declared (l : list IDeEntity) (x : DataSetType) :
  x ∈ declared l ↔ ∃ sensor, sensor ∈ l ∧ x ∈ I_DE_DATA_SETS sensor.
Proof.
  unfold declared. rewrite list_elem_of_bind.
  split; intros (sensor & ? & ?); exists sensor; done.
Qed.

(** [_async_update_data], run: the line that logs the request, the raw
    update for the union of the declared datasets, and the merge. *)
Lemma async_update_data_run (st : State W) :
  let ds := union_of (declared (sensors (self st))) in
  _async_update_data st =
  match _async_update_data_raw ds None
          (add_events [EvLog (LogRequestUpdate ds)] st) with
  | (st', Ok updated_data) =>
      (st', Ok (dict_or (data (self st)) updated_data))
  | (st', Raise e) => (st', Raise e)
  end.
Proof.
  intros ds. unfold _async_update_data.
  rewrite bind_run. unfold get_self at 1.
  rewrite foldl_sensors. simpl (value NONE). rewrite Z.lor_0_l. fold ds.
  rewrite !bind_run. unfold log, emit. simpl.
  change (mk_State _ _ _ _) with (add_events [EvLog (LogRequestUpdate ds)] st).
  rewrite bind_run.
  destruct (_async_update_data_raw ds None _) as [st' [updated|e]] eqn:E;
    [|done].
  apply raw_update_summary in E as (? & _ & Eself & _).
  rewrite bind_run. unfold get_self, mret, M_ret. by rewrite Eself.
Qed.

Lemma iteration_denied_no_success bs d tr d' d'' e :
  iteration_events bs d tr →
  EvBarrierCheck d' (Raise e) ∈ tr → EvBarrierSuccess d'' ∉ tr.
Proof.
  destruct 1; intros Hin Hs; elem_cases; discriminate.
Qed.

Lemma loop_denied_no_success bs ds tr d e :
  NoDup ds → loop_events bs ds tr →
  EvBarrierCheck d (Raise e) ∈ tr → EvBarrierSuccess d ∉ tr.
Proof.
  intros Hnd Hl Hin Hs.
  destruct (loop_events_dataset _ _ _ d Hnd Hl) as (tr_d & Htr_d & Hiff).
  apply Hiff in Hin; [|done]. apply Hiff in Hs; [|done].
  destruct Htr_d as [->|[_ Hi]]; [by apply elem_of_nil in Hin|].
  by eapply iteration_denied_no_success.
Qed.

Lemma run_ticks_new_events ticks (st : State W) e :
  e ∈ new_events st (run_ticks ticks st) →
  ∃ datasets tr,
    e ∈ tr ∧ loop_events (barriers (self st)) (requested datasets) tr.
Proof.
  destruct (run_ticks_events ticks st) as (_ & trs & Etr & Hall).
  rewrite (new_events_app _ _ _ Etr).
  intros (tr & Htr & He)%list_elem_of_In%in_concat.
  apply list_elem_of_In in Htr, He.
  rewrite Forall_forall in Hall. destruct (Hall tr Htr) as [datasets Hev].
  by exists datasets, tr.
Qed.

Lemma dict_or_lookup (d1 d2 : gmap string Value) (k : string) :
  dict_or d1 d2 !! k
  = match d2 !! k with Some v => Some v | None => d1 !! k end.
Proof.
  unfold dict_or. rewrite lookup_union.
  by destruct (d2 !! k), (d1 !! k).
Qed.

Lemma loop_no_generation_success bs ds tr :
  NoDup ds → loop_events bs ds tr →
  EvBarrierSuccess HISTORICAL_GENERATION ∉ tr.
Proof.
  intros Hnd Hl Hin.
  apply (loop_success_iff _ _ _ _ Hnd Hl) in Hin as (_ & f & Hf & Hret).
  destruct f; try discriminate Hf.
  by eapply loop_no_generation_return.
Qed.

(** * The claims *)

(** C1, as the code has it.  When a dataset's barrier allows and its fetch
    raises an exception that is an instance of [Exception] (a decoding
    error, a failed request, a command error or any other such class), the
    iteration logs the error and ends with the accumulated dictionary as it
    came in; the loop goes on with the remaining datasets from there, and
    the barriers are untouched.  No raw update ends with an exception of
    class [Exception] other than the [ValueError] of the timestamp check. *)
Theorem C1_fetch_exception_absorbed
    (dataset : DataSetType) (rest : list DataSetType)
    (data : gmap string Value) (st stf : State W) (l : loc) (e : exn) :
  barriers (self st) !! value dataset = Some l →
  Barrier_check (heap st l) (clock_barrier (world st)) = Ok () →
  fetch dataset
    (add_events [EvBarrierCheck dataset (Ok ()); EvLog (LogAllowed dataset)]
       st)
    = (stf, Raise e) →
  is_Exception e = true →
  for_dataset_body dataset data st
    = (add_events [EvLog (error_log dataset e)] stf, Ok data) ∧
  for_dataset_in (dataset :: rest) data st
    = for_dataset_in rest data (add_events [EvLog (error_log dataset e)] stf) ∧
  self stf = self st ∧ heap stf = heap st ∧
  (∀ datasets now (st0 : State W),
     match (_async_update_data_raw datasets now st0).2 with
     | Ok _ => True
     | Raise e' =>
         is_Exception e' = false ∨
         e' = ValueError "now is missing tzinfo field"
     end).
Proof.
  intros Hl Hc Hf He.
  assert (Hbody : for_dataset_body dataset data st
                  = (add_events [EvLog (error_log dataset e)] stf, Ok data)).
  { rewrite (body_allowed_run _ _ _ l Hl Hc), Hf. by rewrite He. }
  split_and!.
  - done.
  - simpl. by rewrite bind_run, Hbody.
  - pose proof (fetch_sound dataset
      (add_events [EvBarrierCheck dataset (Ok ()); EvLog (LogAllowed dataset)]
         st)) as Hs.
    rewrite Hf in Hs. by apply fetch_outcome_frame in Hs as [? _].
  - pose proof (fetch_sound dataset
      (add_events [EvBarrierCheck dataset (Ok ()); EvLog (LogAllowed dataset)]
         st)) as Hs.
    rewrite Hf in Hs. by apply fetch_outcome_frame in Hs as [_ ?].
  - intros datasets now st0.
    destruct (_async_update_data_raw datasets now st0) as [st1 [u|e']] eqn:E;
      [done|]. simpl.
    apply raw_update_summary in E as (tr & _ & _ & _ & _ & [?|(_ & _ & ? & _)]);
      [by left | by right].
Qed.

(** C2. The snapshot [_async_update_data] returns is [self.data | updated_data]
    for the dictionary the raw update returned: a key of [updated_data] gets
    the new value, any other key keeps the value it had.  When the five
    snapshot keys are distinct, the slots of a dataset with no success in
    this update (skipped, denied or failed) are not in [updated_data] and
    keep their values.  [update_internal_data] merges in the same way. *)
Theorem C2_merge_is_right_biased
    (st st' : State W) (snapshot : gmap string Value) :
  _async_update_data st = (st', Ok snapshot) →
  ∃ updated_data,
    _async_update_data_raw (union_of (declared (sensors (self st)))) None
      (add_events
         [EvLog (LogRequestUpdate (union_of (declared (sensors (self st)))))]
         st)
      = (st', Ok updated_data) ∧
    (∀ k, snapshot !! k
          = match updated_data !! k with
            | Some v => Some v
            | None => data (self st) !! k
            end) ∧
    (distinct_slots →
     ∀ d k, k ∈ slots d → EvBarrierSuccess d ∉ new_events st st' →
            updated_data !! k = None ∧ snapshot !! k = data (self st) !! k) ∧
    (∀ (d : gmap string Value) (s : State W) k,
       data (self (update_internal_data d s).1) !! k
       = match d !! k with
         | Some v => Some v
         | None => data (self s) !! k
         end).
Proof.
  intros Hrun. rewrite async_update_data_run in Hrun.
  set (ds := union_of (declared (sensors (self st)))) in *.
  destruct (_async_update_data_raw ds None _) as [st1 [updated|e]] eqn:E;
    [|done].
  injection Hrun as -> <-. exists updated.
  assert (Hmerge : ∀ k, dict_or (data (self st)) updated !! k
                        = match updated !! k with
                          | Some v => Some v
                          | None => data (self st) !! k
                          end) by (intros k; apply dict_or_lookup).
  split_and!; [done..| |].
  - intros Hdistinct d k Hk Hquiet.
    apply raw_update_summary in E as (tr & Etr & _ & _ & _ & Hres).
    simpl in Etr. rewrite <- app_assoc in Etr.
    rewrite (new_events_app _ _ _ Etr) in Hquiet.
    assert (Hnone : updated !! k = None).
    { apply eq_None_not_Some. intros Hsome.
      destruct (Hres k Hsome) as (d' & _ & Hk' & Hs).
      rewrite (slots_disjoint d d' k Hdistinct Hk Hk') in Hquiet.
      apply Hquiet, elem_of_app. by right. }
    split; [done|]. by rewrite Hmerge, Hnone.
  - intros d s k. apply dict_or_lookup.
Qed.

(** C3. A raw update given a timestamp whose [tzinfo] is not UTC (it compares
    unequal to [timezone.utc]; a naive timestamp, with no [tzinfo], is one
    such) fails with [ValueError] at once: the state it leaves is the state
    it was given, so no barrier was checked, no success recorded and no
    fetch routine invoked. *)
Theorem C3_non_utc_timestamp_rejected
    (datasets : Z) (now : datetime) (st : State W) :
  dt_tzinfo now = None ∨ ne_timezone_utc (dt_tzinfo now) = true →
  _async_update_data_raw datasets (Some now) st
    = (st, Raise (ValueError "now is missing tzinfo field")) ∧
  new_events st (_async_update_data_raw datasets (Some now) st).1 = [].
Proof.
  intros Htz.
  assert (Hne : ne_timezone_utc (dt_tzinfo now) = true)
    by (destruct Htz as [->|?]; done).
  assert (Hrun : _async_update_data_raw datasets (Some now) st
                 = (st, Raise (ValueError "now is missing tzinfo field"))).
  { unfold _async_update_data_raw. rewrite bind_run.
    unfold mret, M_ret. by rewrite Hne. }
  split; [done|]. rewrite Hrun. apply new_events_app. by rewrite app_nil_r.
Qed.

(** C4. A dataset with no entry in the [barriers] dictionary is never
    fetched, whatever bitmask is requested and however many raw updates run:
    its iteration logs "ignored: no barrier defined" and goes on with the
    accumulated dictionary untouched, and across the updates the only events
    about the dataset are such lines, so its fetch routine is never entered
    and no request for it is sent. *)
Theorem C4_no_barrier_never_fetched
    (d : DataSetType) (ticks : list (Z * option datetime)) (st : State W) :
  barriers (self st) !! value d = None →
  (∀ data, for_dataset_body d data st
           = (add_events [EvLog (LogIgnoredNoBarrier d)] st, Ok data)) ∧
  Forall (λ e, ev_dataset e = Some d → e = EvLog (LogIgnoredNoBarrier d))
    (new_events st (run_ticks ticks st)) ∧
  (∀ f, routine_dataset f = d →
        EvInvoke f ∉ new_events st (run_ticks ticks st)).
Proof.
  intros Hbs.
  assert (Hall : ∀ e, e ∈ new_events st (run_ticks ticks st) →
                      ev_dataset e = Some d →
                      e = EvLog (LogIgnoredNoBarrier d)).
  { intros e (datasets & tr & He & Hev)%run_ticks_new_events Hd.
    eapply loop_no_barrier; eauto using NoDup_requested. }
  split_and!.
  - intros data. by apply body_no_barrier_run.
  - by apply Forall_forall.
  - intros f Hf Hin. apply Hall in Hin; [done|]. simpl. congruence.
Qed.

(** C5. In a raw update, [success()] is called on a dataset's barrier
    exactly when, in that same update, the barrier's [check()] returned and
    the dataset's fetch routine reached its [return]; after a denied check no
    success is recorded; and a barrier object is left as it was unless a
    success was recorded for a dataset the dictionary maps to it. *)
Theorem C5_success_only_after_fetch
    (datasets : Z) (now : option datetime) (st : State W) (d : DataSetType) :
  let st' := (_async_update_data_raw datasets now st).1 in
  let tr := new_events st st' in
  (EvBarrierSuccess d ∈ tr ↔
     EvBarrierCheck d (Ok ()) ∈ tr ∧
     ∃ f, routine_dataset f = d ∧ EvReturn f ∈ tr) ∧
  (∀ e, EvBarrierCheck d (Raise e) ∈ tr → EvBarrierSuccess d ∉ tr) ∧
  (∀ l, (∀ d', barriers (self st) !! value d' = Some l →
               EvBarrierSuccess d' ∉ tr) →
        heap st' l = heap st l).
Proof.
  intros st' tr.
  destruct (_async_update_data_raw datasets now st) as [st1 r] eqn:E.
  apply raw_update_summary in E as (tr1 & Etr & _ & Hev & Hheap & _).
  subst st' tr. simpl. rewrite (new_events_app _ _ _ Etr).
  split_and!.
  - eapply loop_success_iff; eauto using NoDup_requested.
  - intros e. eapply loop_denied_no_success; eauto using NoDup_requested.
  - done.
Qed.

(** C6. The bitmask [_async_update_data] requests is the bitwise union of
    the dataset sets the registered sensors declare: bit by bit, a bit is set
    exactly when some sensor declares a dataset with that bit.  With no
    sensor registered the bitmask is 0: the update only logs its request (no
    barrier is checked, no fetch routine invoked), the raw update returns the
    empty dictionary, and the snapshot comes back as it was. *)
Theorem C6_requested_is_union_of_sensors
    (st : State W) (snapshot : gmap string Value) (bs : gmap Z loc)
    (h : loc → Barrier) (w : W) (tr0 : list Event) :
  let ds := union_of (declared (sensors (self st))) in
  let idle := mk_State (mk_Coordinator snapshot bs []) h w tr0 in
  (∀ i, Z.testbit ds i = true ↔
        ∃ sensor x, sensor ∈ sensors (self st) ∧
                    x ∈ I_DE_DATA_SETS sensor ∧
                    Z.testbit (value x) i = true) ∧
  _async_update_data st
    = match _async_update_data_raw ds None
              (add_events [EvLog (LogRequestUpdate ds)] st) with
      | (st', Ok updated_data) =>
          (st', Ok (dict_or (data (self st)) updated_data))
      | (st', Raise e) => (st', Raise e)
      end ∧
  _async_update_data_raw 0 None (add_events [EvLog (LogRequestUpdate 0)] idle)
    = (add_events [EvLog (LogRequestUpdate 0)] idle, Ok ∅) ∧
  _async_update_data idle
    = (add_events [EvLog (LogRequestUpdate 0)] idle, Ok snapshot).
Proof.
  intros ds idle. split_and!.
  - intros i. subst ds. rewrite union_of_testbit. split.
    + intros (x & (sensor & ? & ?)%elem_of_declared & ?). by exists sensor, x.
    + intros (sensor & x & ? & ? & ?). exists x. split; [|done].
      apply elem_of_declared. by exists sensor.
  - apply async_update_data_run.
  - done.
  - rewrite async_update_data_run. simpl.
    unfold dict_or. by rewrite (left_id_L ∅ (∪)).
Qed.

(** C7. Whatever the requested bitmask, the datasets the loop goes through
    are the single-bit members whose bit is set, in definition order: [ALL]
    and [NONE] are never among them.  Every event of a raw update is about
    one of these datasets, and the [else] branch of the dispatch ("not
    implemented yet") is never taken. *)
Theorem C7_only_concrete_datasets
    (datasets : Z) (now : option datetime) (st : State W) :
  requested datasets
    = filter (λ x, Z.land (value x) datasets ≠ 0)
        [MEASURE; HISTORICAL_CONSUMPTION; HISTORICAL_GENERATION;
         HISTORICAL_POWER_DEMAND] ∧
  Forall (λ x, x ≠ ALL ∧ x ≠ NONE ∧ x ∈ DataSetType_canonical)
    (requested datasets) ∧
  Forall (λ e, ∃ d, ev_dataset e = Some d ∧ d ∈ requested datasets ∧
                    e ≠ EvLog (LogIgnoredNotImplemented d))
    (new_events st (_async_update_data_raw datasets now st).1).
Proof.
  split_and!; [done | |].
  - apply Forall_forall. intros x Hx.
    destruct (requested_concrete _ _ Hx).
    by apply requested_spec in Hx as [? _].
  - destruct (raw_update_events datasets now st) as (_ & _ & Hev).
    apply Forall_forall. intros e He.
    pose proof (loop_events_about _ _ _ Hev) as Habout.
    rewrite Forall_forall in Habout.
    destruct (Habout e He) as (d & Hd & Hed).
    exists d. split_and!; [done..|]. intros ->.
    eapply loop_dispatch_reached; [exact Hev | | exact He].
    intros x Hx. by apply requested_concrete in Hx.
Qed.

(** C8. Normalisation attaches the configured local zone to the timestamps
    of a historical line ([start] and [end] of a period, [dt] of a demand)
    and changes nothing else: year, month, day, hour, minute, second and
    microsecond are those of the raw value.  The fragments the consumption
    and power-demand routines return hold the upstream lines normalised in
    this way, one for one. *)
Theorem C8_normalisation_annotates :
  (∀ item, period_annotated LOCAL_TZ item (normalize_period_item item)) ∧
  (∀ item, demand_annotated LOCAL_TZ item (normalize_dated_item item)) ∧
  (∀ st : State W,
     match get_historical_consumption_data st with
     | (_, Ok fragment) =>
         ∃ raw h,
           (api_get_historical_consumption (window_start st) (window_end st)
              (world st)).1 = Ok raw ∧
           fragment
             = {[DATA_ATTR_HISTORICAL_CONSUMPTION := VHistoricalConsumption h]} ∧
           Forall2 (period_annotated LOCAL_TZ) (hc_periods raw) (hc_periods h) ∧
           hc_other h = hc_other raw
     | (_, Raise _) => True
     end) ∧
  (∀ st : State W,
     match get_historical_power_demand_data st with
     | (_, Ok fragment) =>
         ∃ raw h,
           (api_get_historical_power_demand (world st)).1 = Ok raw ∧
           fragment
             = {[DATA_ATTR_HISTORICAL_POWER_DEMAND := VHistoricalPowerDemand h]} ∧
           Forall2 (demand_annotated LOCAL_TZ) (hpd_demands raw) (hpd_demands h) ∧
           hpd_other h = hpd_other raw
     | (_, Raise _) => True
     end).
Proof.
  assert (Hp : ∀ item,
            period_annotated LOCAL_TZ item (normalize_period_item item))
    by (intros item; repeat split).
  assert (Hd : ∀ item,
            demand_annotated LOCAL_TZ item (normalize_dated_item item))
    by (intros item; repeat split).
  split_and!; [done..| |].
  - intros st. rewrite get_historical_consumption_data_run.
    destruct (api_get_historical_consumption _ _ _) as [[raw|e] w]; [|done].
    eexists raw, _. split_and!; [done..| |done]. simpl.
    induction (hc_periods raw); constructor; auto.
  - intros st. rewrite get_historical_power_demand_data_run.
    destruct (api_get_historical_power_demand _) as [[raw|e] w]; [|done].
    eexists raw, _. split_and!; [done..| |done]. simpl.
    induction (hpd_demands raw); constructor; auto.
Qed.

(** C9, as the code has it.  The historical-generation routine never
    returns a fragment: it raises [NotImplementedError] once the upstream
    request has answered, and the request's own exception otherwise.  In a
    raw update in which the generation barrier's check returns, the routine
    is entered and does not reach its [return], no success is recorded for
    the dataset (its barrier object, if no other dataset shares it, is as it
    was), and the update either returns a dictionary without the
    historical-generation key, so that the merge leaves that slot of the
    snapshot as it was, or ends with an exception that is not an instance of
    [Exception]. *)
Theorem C9_generation_always_fails
    (datasets : Z) (now : option datetime) (st : State W) :
  let run := _async_update_data_raw datasets now st in
  let tr := new_events st run.1 in
  EvBarrierCheck HISTORICAL_GENERATION (Ok ()) ∈ tr →
  HISTORICAL_GENERATION ∈ requested datasets ∧
  EvInvoke FetchHistoricalGeneration ∈ tr ∧
  (EvReturn FetchHistoricalGeneration ∉ tr) ∧
  (EvBarrierSuccess HISTORICAL_GENERATION ∉ tr) ∧
  (∀ l, barriers (self st) !! value HISTORICAL_GENERATION = Some l →
        (∀ d, d ≠ HISTORICAL_GENERATION →
              barriers (self st) !! value d ≠ Some l) →
        heap run.1 l = heap st l) ∧
  match run.2 with
  | Ok updated_data =>
      distinct_slots →
      updated_data !! DATA_ATTR_HISTORICAL_GENERATION = None ∧
      dict_or (data (self st)) updated_data !! DATA_ATTR_HISTORICAL_GENERATION
        = data (self st) !! DATA_ATTR_HISTORICAL_GENERATION
  | Raise e => is_Exception e = false
  end ∧
  (∀ st0 : State W,
     (get_historical_generation_data st0).2
     = match (api_get_historical_generation (window_start st0)
                (window_end st0) (world st0)).1 with
       | Ok _ => Raise NotImplementedError
       | Raise e => Raise e
       end).
Proof.
  intros run tr Hin. subst run tr.
  destruct (_async_update_data_raw datasets now st) as [st' r] eqn:E.
  apply raw_update_summary in E as (tr & Etr & _ & Hev & Hheap & Hres).
  simpl in *. rewrite (new_events_app _ _ _ Etr) in *.
  pose proof (NoDup_requested datasets) as Hnd.
  assert (Hquiet : EvBarrierSuccess HISTORICAL_GENERATION ∉ tr)
    by by eapply loop_no_generation_success.
  split_and!.
  - by destruct (loop_check_has_barrier _ _ _ _ _ Hnd Hev Hin).
  - destruct (loop_allowed_invokes _ _ _ HISTORICAL_GENERATION Hnd Hev
                ltac:(done) ltac:(done) Hin) as (f & st0 & Hf & Hinv & _).
    by destruct f.
  - by eapply loop_no_generation_return.
  - done.
  - intros l Hl Hown. apply Hheap. intros d Hd.
    destruct (decide (d = HISTORICAL_GENERATION)) as [->|Hne]; [done|].
    by destruct (Hown d Hne).
  - destruct r as [updated|e].
    + intros Hdistinct.
      assert (Hnone : updated !! DATA_ATTR_HISTORICAL_GENERATION = None).
      { apply eq_None_not_Some. intros Hsome.
        destruct (Hres _ Hsome) as (d' & _ & Hk' & Hs).
        assert (HISTORICAL_GENERATION = d') as <-; [|done].
        eapply slots_disjoint; [done | | done]. simpl. elem_solve. }
      split; [done|]. by rewrite dict_or_lookup, Hnone.
    + destruct Hres as [?|(-> & _)]; [done|]. by apply elem_of_nil in Hin.
  - intros st0. rewrite get_historical_generation_data_run.
    by destruct (api_get_historical_generation _ _ _) as [[?|?] ?].
Qed.

(** C10. The historical-generation routine always sends the upstream request
    [get_historical_generation(start, end)], with [end] the naive
    [datetime.today()] and [start] one historical period before it, and only
    then raises: [NotImplementedError] once the request has answered, the
    request's own exception otherwise.  So a raw update in which the
    generation barrier's check returns sends that request, and the routine
    never reaches its [return]. *)
Theorem C10_generation_request_before_failure :
  (∀ st : State W,
     window_start st
       = datetime_sub (window_end st) HISTORICAL_PERIOD_LENGHT ∧
     get_historical_generation_data st
       = (mk_State (self st) (heap st)
            (api_get_historical_generation (window_start st) (window_end st)
               (world st)).2
            (trace st ++
               [EvInvoke FetchHistoricalGeneration;
                EvApi (ApiGetHistoricalGeneration (window_start st)
                         (window_end st))]),
          match (api_get_historical_generation (window_start st)
                   (window_end st) (world st)).1 with
          | Ok _ => Raise NotImplementedError
          | Raise e => Raise e
          end)) ∧
  (∀ datasets now (st : State W),
     let tr := new_events st (_async_update_data_raw datasets now st).1 in
     (EvBarrierCheck HISTORICAL_GENERATION (Ok ()) ∈ tr →
      EvInvoke FetchHistoricalGeneration ∈ tr ∧
      ∃ st0 : State W,
        EvApi (ApiGetHistoricalGeneration (window_start st0) (window_end st0))
          ∈ tr) ∧
     EvReturn FetchHistoricalGeneration ∉ tr).
Proof.
  split.
  - intros st. split; [done|].
    rewrite get_historical_generation_data_run.
    by destruct (api_get_historical_generation _ _ _) as [answer w].
  - intros datasets now st tr.
    destruct (raw_update_events datasets now st) as (_ & _ & Hev).
    fold tr in Hev. pose proof (NoDup_requested datasets) as Hnd. split.
    + intros Hin.
      destruct (loop_allowed_invokes _ _ _ HISTORICAL_GENERATION Hnd Hev
                  ltac:(done) ltac:(done) Hin)
        as (f & st0 & Hf & Hinv & Hapi).
      destruct f; try discriminate Hf. split; [done|]. by exists st0.
    + by eapply loop_no_generation_return.
Qed.

End Theory.

(** * The claims, run on the scripted world *)

(** The keys of the scripted world are distinct. *)
Lemma demo_distinct_slots : distinct_slots (H := Demo.const).
Proof. apply (bool_decide_unpack _). by vm_compute. Qed.

(** C1 at work: the measure request fails with "503 Service Unavailable";
    the loop logs it and goes on with the historical consumption. *)
Lemma C1_fetch_exception_absorbed_witness :
  (barriers (self Scenarios.all_down) !! value MEASURE = Some 0%nat ∧
   Barrier_check (heap Scenarios.all_down 0%nat)
     (clock_barrier (world Scenarios.all_down)) = Ok () ∧
   fetch MEASURE Scenarios.all_down_allowed
     = (Scenarios.all_down_fetched, Raise Demo.service_unavailable) ∧
   is_Exception Demo.service_unavailable = true) ∧
  for_dataset_body MEASURE ∅ Scenarios.all_down
    = (add_events [EvLog (error_log MEASURE Demo.service_unavailable)]
         Scenarios.all_down_fetched, Ok ∅) ∧
  for_dataset_in [MEASURE; HISTORICAL_CONSUMPTION] ∅ Scenarios.all_down
    = for_dataset_in [HISTORICAL_CONSUMPTION] ∅
        (add_events [EvLog (error_log MEASURE Demo.service_unavailable)]
           Scenarios.all_down_fetched) ∧
  self Scenarios.all_down_fetched = self Scenarios.all_down ∧
  heap Scenarios.all_down_fetched = heap Scenarios.all_down ∧
  (∀ datasets now (st0 : State Demo.World),
     match (_async_update_data_raw datasets now st0).2 with
     | Ok _ => True
     | Raise e' =>
         is_Exception e' = false ∨
         e' = ValueError "now is missing tzinfo field"
     end).
Proof.
  assert (H1 : barriers (self Scenarios.all_down) !! value MEASURE
               = Some 0%nat) by (vm_compute; reflexivity).
  assert (H2 : Barrier_check (heap Scenarios.all_down 0%nat)
                 (clock_barrier (world Scenarios.all_down)) = Ok ())
    by (vm_compute; reflexivity).
  assert (H3 : fetch MEASURE Scenarios.all_down_allowed
               = (Scenarios.all_down_fetched, Raise Demo.service_unavailable))
    by (vm_compute; reflexivity).
  assert (H4 : is_Exception Demo.service_unavailable = true)
    by (vm_compute; reflexivity).
  split; [done|].
  exact (C1_fetch_exception_absorbed MEASURE [HISTORICAL_CONSUMPTION] ∅
           Scenarios.all_down Scenarios.all_down_fetched 0%nat
           Demo.service_unavailable H1 H2 H3 H4).
Defined.

(** The task is cancelled while the measure is awaited: the exception is not
    an [Exception], no [except] clause takes it, and it leaves the raw
    update with the three remaining datasets not looked at. *)
Lemma C1_cancellation_escapes :
  requested 15
    = [MEASURE; HISTORICAL_CONSUMPTION; HISTORICAL_GENERATION;
       HISTORICAL_POWER_DEMAND] ∧
  (fetch MEASURE
     (add_events [EvBarrierCheck MEASURE (Ok ()); EvLog (LogAllowed MEASURE)]
        (Demo.start Demo.measure_cancelled Demo.four_barriers))).2
    = Raise (BaseExceptionOnly "asyncio.CancelledError") ∧
  Scenarios.measure_cancelled_run.2
    = Raise (BaseExceptionOnly "asyncio.CancelledError") ∧
  trace Scenarios.measure_cancelled_run.1
    = [EvBarrierCheck MEASURE (Ok ()); EvLog (LogAllowed MEASURE);
       EvInvoke FetchDirectReading; EvApi ApiGetMeasure].
Proof. split_and!; vm_compute; reflexivity. Qed.

(** C2 at work: two sensors, on the measure and on the historical
    consumption; the generation and power-demand slots keep their values. *)
Lemma C2_merge_is_right_biased_witness :
  _async_update_data Demo.two_sensors
    = (Scenarios.registered_run.1, Ok Scenarios.registered_snapshot) ∧
  ∃ updated_data,
    _async_update_data_raw
      (union_of (declared (sensors (self Demo.two_sensors)))) None
      (add_events
         [EvLog (LogRequestUpdate
                   (union_of (declared (sensors (self Demo.two_sensors)))))]
         Demo.two_sensors)
      = (Scenarios.registered_run.1, Ok updated_data) ∧
    (∀ k, Scenarios.registered_snapshot !! k
          = match updated_data !! k with
            | Some v => Some v
            | None => data (self Demo.two_sensors) !! k
            end) ∧
    (distinct_slots →
     ∀ d k, k ∈ slots d →
            EvBarrierSuccess d
              ∉ new_events Demo.two_sensors Scenarios.registered_run.1 →
            updated_data !! k = None ∧
            Scenarios.registered_snapshot !! k
              = data (self Demo.two_sensors) !! k) ∧
    (∀ (d : gmap string Value) (s : State Demo.World) k,
       data (self (update_internal_data d s).1) !! k
       = match d !! k with
         | Some v => Some v
         | None => data (self s) !! k
         end).
Proof.
  assert (H1 : _async_update_data Demo.two_sensors
               = (Scenarios.registered_run.1,
                  Ok Scenarios.registered_snapshot))
    by (vm_compute; reflexivity).
  split; [exact H1|].
  exact (C2_merge_is_right_biased Demo.two_sensors Scenarios.registered_run.1
           Scenarios.registered_snapshot H1).
Defined.

(** C3 at work: a naive timestamp. *)
Lemma C3_non_utc_timestamp_rejected_witness :
  (dt_tzinfo Demo.a_morning = None ∨
   ne_timezone_utc (dt_tzinfo Demo.a_morning) = true) ∧
  _async_update_data_raw 15 (Some Demo.a_morning) Scenarios.sunny
    = (Scenarios.sunny, Raise (ValueError "now is missing tzinfo field")) ∧
  new_events Scenarios.sunny
    (_async_update_data_raw 15 (Some Demo.a_morning) Scenarios.sunny).1 = [].
Proof.
  split; [by left|].
  apply (C3_non_utc_timestamp_rejected 15 Demo.a_morning Scenarios.sunny).
  by left.
Defined.

(** C4 at work: the historical consumption has no barrier. *)
Lemma C4_no_barrier_never_fetched_witness :
  barriers (self Scenarios.unbarred) !! value HISTORICAL_CONSUMPTION = None ∧
  (∀ data, for_dataset_body HISTORICAL_CONSUMPTION data Scenarios.unbarred
           = (add_events [EvLog (LogIgnoredNoBarrier HISTORICAL_CONSUMPTION)]
                Scenarios.unbarred, Ok data)) ∧
  Forall (λ e, ev_dataset e = Some HISTORICAL_CONSUMPTION →
               e = EvLog (LogIgnoredNoBarrier HISTORICAL_CONSUMPTION))
    (new_events Scenarios.unbarred
       (run_ticks Scenarios.two_ticks Scenarios.unbarred)) ∧
  (∀ f, routine_dataset f = HISTORICAL_CONSUMPTION →
        EvInvoke f ∉ new_events Scenarios.unbarred
                       (run_ticks Scenarios.two_ticks Scenarios.unbarred)).
Proof.
  assert (H1 : barriers (self Scenarios.unbarred)
                 !! value HISTORICAL_CONSUMPTION = None)
    by (vm_compute; reflexivity).
  split; [exact H1|].
  exact (C4_no_barrier_never_fetched HISTORICAL_CONSUMPTION
           Scenarios.two_ticks Scenarios.unbarred H1).
Defined.

(** C9 at work: all four datasets requested, every barrier allowing, every
    request answering. *)
Lemma C9_generation_always_fails_witness :
  EvBarrierCheck HISTORICAL_GENERATION (Ok ())
    ∈ new_events Scenarios.sunny Scenarios.sunny_run.1 ∧
  HISTORICAL_GENERATION ∈ requested 15 ∧
  EvInvoke FetchHistoricalGeneration
    ∈ new_events Scenarios.sunny Scenarios.sunny_run.1 ∧
  (EvReturn FetchHistoricalGeneration
     ∉ new_events Scenarios.sunny Scenarios.sunny_run.1) ∧
  (EvBarrierSuccess HISTORICAL_GENERATION
     ∉ new_events Scenarios.sunny Scenarios.sunny_run.1) ∧
  (∀ l, barriers (self Scenarios.sunny) !! value HISTORICAL_GENERATION
          = Some l →
        (∀ d, d ≠ HISTORICAL_GENERATION →
              barriers (self Scenarios.sunny) !! value d ≠ Some l) →
        heap Scenarios.sunny_run.1 l = heap Scenarios.sunny l) ∧
  match Scenarios.sunny_run.2 with
  | Ok updated_data =>
      distinct_slots →
      updated_data !! DATA_ATTR_HISTORICAL_GENERATION = None ∧
      dict_or (data (self Scenarios.sunny)) updated_data
        !! DATA_ATTR_HISTORICAL_GENERATION
        = data (self Scenarios.sunny) !! DATA_ATTR_HISTORICAL_GENERATION
  | Raise e => is_Exception e = false
  end ∧
  (∀ st0 : State Demo.World,
     (get_historical_generation_data st0).2
     = match (api_get_historical_generation (window_start st0)
                (window_end st0) (world st0)).1 with
       | Ok _ => Raise NotImplementedError
       | Raise e => Raise e
       end).
Proof.
  assert (H1 : EvBarrierCheck HISTORICAL_GENERATION (Ok ())
                 ∈ new_events Scenarios.sunny Scenarios.sunny_run.1).
  { apply list_elem_of_In. vm_compute. tauto. }
  split; [exact H1|].
  exact (C9_generation_always_fails 15 None Scenarios.sunny H1).
Defined.

(** The upstream service answers the generation request with "503 Service
    Unavailable": the routine fails with that error and not with "not
    implemented".  And when the task is cancelled while the generation
    request is awaited, the raw update does not complete: the cancellation
    leaves it. *)
Lemma C9_generation_fails_otherwise :
  (HISTORICAL_GENERATION ∈ requested 15 ∧
   EvBarrierCheck HISTORICAL_GENERATION (Ok ())
     ∈ trace Scenarios.generation_down_run.1 ∧
   EvLog (LogErrorRequestFailed HISTORICAL_GENERATION
            "Service Unavailable" 503)
     ∈ trace Scenarios.generation_down_run.1 ∧
   (get_historical_generation_data
      (Demo.start Demo.generation_down Demo.four_barriers)).2
     = Raise (RequestFailedError "Service Unavailable" 503) ∧
   (get_historical_generation_data
      (Demo.start Demo.generation_down Demo.four_barriers)).2
     ≠ Raise NotImplementedError) ∧
  (EvBarrierCheck HISTORICAL_GENERATION (Ok ())
     ∈ trace Scenarios.generation_cancelled_run.1 ∧
   Scenarios.generation_cancelled_run.2
     = Raise (BaseExceptionOnly "asyncio.CancelledError")).
Proof.
  split_and!.
  1-3: apply list_elem_of_In; vm_compute; tauto.
  - vm_compute; reflexivity.
  - vm_compute. discriminate.
  - apply list_elem_of_In; vm_compute; tauto.
  - vm_compute; reflexivity.
Qed.

(** * More of the coordinator *)

Section Coverage.
Context {W : Type} `{!Upstream W} `{!Const}.

(** ** Bitmasks *)

Lemma land_low_bits (x : DataSetType) (datasets : Z) :
  x ∈ DataSetType_canonical →
  Z.land (value x) (Z.land datasets 15) = Z.land (value x) datasets.
Proof.
  intros Hx. rewrite (Z.land_comm datasets), Z.land_assoc. f_equal.
  unfold DataSetType_canonical in Hx. elem_cases; by subst.
Qed.


(** X1. Neither update assigns an attribute of the coordinator: the
    snapshot, the barriers dictionary and the list of sensors are, after a
    raw update and after [_async_update_data], what they were before, also
    when the update raises. *)
Theorem updates_keep_attributes
    (datasets : Z) (now : option datetime) (st : State W) :
  self (_async_update_data_raw datasets now st).1 = self st ∧
  self (_async_update_data st).1 = self st.
Proof.
  split.
  - by destruct (raw_update_events datasets now st) as (_ & ? & _).
  - rewrite async_update_data_run. cbv zeta.
    set (ds := union_of (declared (sensors (self st)))).
    destruct (raw_update_events ds None
                (add_events [EvLog (LogRequestUpdate ds)] st))
      as (_ & Hself & _).
    by destruct (_async_update_data_raw ds None _) as [st' [u|e]].
Qed.

Lemma filter_ext_in {A} (P Q : A → Prop)
    `{!∀ x, Decision (P x)} `{!∀ x, Decision (Q x)} (l : list A) :
  (∀ x, x ∈ l → P x ↔ Q x) → filter P l = filter Q l.
Proof.
  induction l as [|x l IH]; intros Hext; [done|].
  rewrite !filter_cons.
  rewrite IH by (intros y Hy; apply Hext; by right).
  destruct (decide (P x)) as [HP|HP], (decide (Q x)) as [HQ|HQ];
    try done; exfalso; apply (Hext x) in HP || apply (Hext x) in HQ;
    done || left.
Qed.

Lemma requested_low_bits (datasets : Z) :
  requested datasets = requested (Z.land datasets 15).
Proof.
  rewrite <- (requested_canonical datasets),
    <- (requested_canonical (Z.land datasets 15)).
  unfold requested_from. apply filter_ext_in. intros x Hx.
  apply (list_elem_of_filter (λ x, x ≠ ALL)) in Hx as [_ Hx].
  by rewrite land_low_bits.
Qed.

(** X2. Only the four low bits of the requested bitmask count: a raw update
    for [datasets] is the raw update for [datasets & 0b1111].  A bitmask
    with none of these bits requests nothing, and the raw update then
    returns the empty dictionary and leaves the state as it is. *)
Theorem raw_update_low_bits
    (datasets : Z) (now : option datetime) (st : State W) :
  requested datasets = requested (Z.land datasets 15) ∧
  _async_update_data_raw datasets now st
    = _async_update_data_raw (Z.land datasets 15) now st ∧
  (Z.land datasets 15 = 0 →
   requested datasets = [] ∧
   _async_update_data_raw datasets None st = (st, Ok ∅)).
Proof.
  pose proof (requested_low_bits datasets) as Hreq.
  split_and!; [done | |].
  - unfold _async_update_data_raw. by rewrite Hreq.
  - intros H0. rewrite H0 in Hreq. split; [done|].
    unfold _async_update_data_raw. by rewrite Hreq.
Qed.

Lemma requested_lor (a b : Z) (x : DataSetType) :
  x ∈ requested (Z.lor a b) ↔ x ∈ requested a ∨ x ∈ requested b.
Proof.
  rewrite !requested_spec, Z.land_lor_distr_r, Z.lor_eq_0_iff. split.
  - intros [Hx Hne].
    destruct (decide (Z.land (value x) a = 0)); [right | left];
      (split; [done|]); tauto.
  - intros [[Hx Hne]|[Hx Hne]]; (split; [done|]); tauto.
Qed.

(** X3. The datasets requested by a union of bitmasks are those requested
    by one of them; they always come in the order of the catalogue; and the
    default bitmask [ALL] requests the four of them. *)
Theorem requested_of_union (a b : Z) (x : DataSetType) :
  (x ∈ requested (Z.lor a b) ↔ x ∈ requested a ∨ x ∈ requested b) ∧
  requested a `sublist_of` DataSetType_canonical ∧
  requested (value ALL) = DataSetType_canonical.
Proof.
  split_and!; [apply requested_lor | |done].
  rewrite <- requested_canonical. unfold requested_from.
  apply sublist_filter.
Qed.


(** ** The order of calls *)

Lemma loop_request_block bs ds tr c :
  loop_events bs ds tr → EvApi c ∈ tr →
  ∃ pre post f (st0 : State W),
    c = request_of f st0 ∧
    tr = pre ++ allowed_block (routine_dataset f) f c ++ post ∧
    routine_dataset f ∈ ds ∧ is_Some (bs !! value (routine_dataset f)).
Proof.
  induction 1 as [|d rest tr_d tr_rest Hd Hr IH]; intros Hin;
    [by apply elem_of_nil in Hin|].
  apply elem_of_app in Hin as [Hin|Hin].
  - destruct Hd as [?|reason ?|f st e Hs <- ?|f st Hs <-|? ?|f st Hs <- ?];
      elem_cases; try discriminate; injection Hin as ->.
    + exists [], ([EvLog (error_log (routine_dataset f) e)] ++ tr_rest), f, st.
      split_and!; [done..|left|done].
    + exists [], tr_rest, f, st. split_and!; [done..|left|done].
    + exists [], ([EvReturn f; EvBarrierSuccess (routine_dataset f);
                   EvLog (LogSuccessful (routine_dataset f))] ++ tr_rest),
        f, st.
      split_and!; [done..|left|done].
  - destruct (IH Hin) as (pre & post & f & st0 & -> & -> & Hds & Hs).
    exists (tr_d ++ pre), post, f, st0.
    split_and!; [done | by rewrite <- app_assoc | by right | done].
Qed.

Lemma loop_success_block bs ds tr d :
  loop_events bs ds tr → EvBarrierSuccess d ∈ tr →
  ∃ pre post f (st0 : State W),
    routine_dataset f = d ∧ f ≠ FetchHistoricalGeneration ∧
    tr = pre ++ fetched_block d f (request_of f st0) ++ post.
Proof.
  induction 1 as [|d0 rest tr_d tr_rest Hd Hr IH]; intros Hin;
    [by apply elem_of_nil in Hin|].
  apply elem_of_app in Hin as [Hin|Hin].
  - destruct Hd as [?|reason ?|f st e Hs <- ?|f st Hs <-|? ?|f st Hs <- ?];
      elem_cases; try discriminate; injection Hin as ->.
    exists [], tr_rest, f, st. split_and!; done.
  - destruct (IH Hin) as (pre & post & f & st0 & Hf & Hg & ->).
    exists (tr_d ++ pre), post, f, st0.
    split_and!; [done.. | by rewrite <- app_assoc].
Qed.

Lemma iteration_one_request bs d tr :
  iteration_events bs d tr →
  (length (filter (λ e, is_request e) tr) ≤ 1)%nat.
Proof.
  destruct 1;
    repeat (rewrite filter_cons; case_decide;
            [try (exfalso; done) | try (exfalso; auto; done)]);
    rewrite filter_nil; simpl; lia.
Qed.

Lemma loop_requests_bound bs ds tr :
  loop_events bs ds tr →
  (length (filter (λ e, is_request e) tr) ≤ length ds)%nat.
Proof.
  induction 1 as [ds|d rest tr_d tr_rest Hd Hr IH]; [cbn; lia|].
  rewrite filter_app, length_app. simpl.
  apply iteration_one_request in Hd. lia.
Qed.

(** X5. In a raw update, every request to the upstream service is gated:
    it stands in the run right behind the check of its dataset's barrier
    having returned, the "allowed" line and the entry of the fetch routine
    that sends it, and its dataset is requested and has a barrier. *)
Theorem requests_are_gated
    (datasets : Z) (now : option datetime) (st : State W) (c : ApiCall) :
  EvApi c ∈ new_events st (_async_update_data_raw datasets now st).1 →
  ∃ pre post f (st0 : State W),
    c = request_of f st0 ∧
    new_events st (_async_update_data_raw datasets now st).1
      = pre ++ allowed_block (routine_dataset f) f c ++ post ∧
    routine_dataset f ∈ requested datasets ∧
    is_Some (barriers (self st) !! value (routine_dataset f)).
Proof.
  destruct (raw_update_events datasets now st) as (_ & _ & Hev).
  by apply loop_request_block.
Qed.

(** X6. A raw update sends at most one request for each dataset it goes
    through, so at most four requests in all. *)
Theorem requests_are_bounded
    (datasets : Z) (now : option datetime) (st : State W) (d : DataSetType) :
  let tr := new_events st (_async_update_data_raw datasets now st).1 in
  (length (filter (λ e, is_request e) tr) ≤ length (requested datasets))%nat ∧
  (length (requested datasets) ≤ 4)%nat ∧
  (length (filter (λ e, is_request e) (events_about d tr)) ≤ 1)%nat.
Proof.
  intros tr. destruct (raw_update_events datasets now st) as (_ & _ & Hev).
  fold tr in Hev. split_and!.
  - by apply loop_requests_bound in Hev.
  - rewrite <- requested_canonical. unfold requested_from.
    etrans; [apply length_filter|]. done.
  - destruct (loop_events_project _ _ _ d (NoDup_requested datasets) Hev)
      as [->|[_ Hi]]; [cbn; lia|].
    by eapply iteration_one_request.
Qed.

(** X7. When a dataset's barrier denies in a raw update (its [check()]
    raises [BarrierDeniedError]), all the update does about the dataset is
    that check and the "denied" line with the barrier's reason: its fetch
    routine is not entered, no request is sent for it and no success is
    recorded. *)
Theorem denied_dataset_is_left_alone
    (datasets : Z) (now : option datetime) (st : State W)
    (d : DataSetType) (reason : string) :
  EvBarrierCheck d (Raise (BarrierDeniedError reason))
    ∈ new_events st (_async_update_data_raw datasets now st).1 →
  events_about d (new_events st (_async_update_data_raw datasets now st).1)
    = [EvBarrierCheck d (Raise (BarrierDeniedError reason));
       EvLog (LogDenied d reason)].
Proof.
  intros Hin. destruct (raw_update_events datasets now st) as (_ & _ & Hev).
  assert (Hin' : EvBarrierCheck d (Raise (BarrierDeniedError reason))
                   ∈ events_about d
                       (new_events st
                          (_async_update_data_raw datasets now st).1))
    by by apply elem_of_events_about.
  remember (events_about d
              (new_events st (_async_update_data_raw datasets now st).1))
    as tr_d eqn:Etr.
  destruct (loop_events_project _ _ _ d (NoDup_requested datasets) Hev)
    as [Hnil|[_ Hi]]; rewrite <- Etr in *;
    [rewrite Hnil in Hin'; by apply elem_of_nil in Hin'|].
  clear Etr Hin. destruct Hi; elem_cases; try discriminate.
  by injection Hin' as ->.
Qed.

(** X8. [success()] comes last: a success recorded in a raw update stands
    in the run at the end of the block check, "allowed" line, entry of the
    routine, request, return of the routine, and is followed by the
    "successful" line; the routine is never the historical-generation one. *)
Theorem success_follows_the_fetch
    (datasets : Z) (now : option datetime) (st : State W) (d : DataSetType) :
  EvBarrierSuccess d
    ∈ new_events st (_async_update_data_raw datasets now st).1 →
  ∃ pre post f (st0 : State W),
    routine_dataset f = d ∧ f ≠ FetchHistoricalGeneration ∧
    new_events st (_async_update_data_raw datasets now st).1
      = pre ++ fetched_block d f (request_of f st0) ++ post.
Proof.
  destruct (raw_update_events datasets now st) as (_ & _ & Hev).
  by eapply loop_success_block.
Qed.

(** ** The dictionary a raw update returns *)

Lemma fetch_fragment_complete d (st stf : State W) fragment :
  fetch d st = (stf, Ok (Some fragment)) →
  ∀ k, k ∈ slots d → is_Some (fragment !! k).
Proof.
  destruct d; unfold fetch; rewrite bind_run.
  - unfold log, emit. simpl. by intros [= _ ?].
  - rewrite get_direct_reading_data_run.
    destruct (api_get_measure (world st)) as [[m|e] w]; [|done].
    intros [= _ <-] k Hk. simpl in Hk.
    apply lookup_insert_is_Some.
    destruct (decide (DATA_ATTR_MEASURE_INSTANT = k)); [by left | right].
    split; [done|]. elem_cases; [|congruence].
    subst k. rewrite lookup_insert_eq. by eexists.
  - rewrite get_historical_consumption_data_run.
    destruct (api_get_historical_consumption _ _ _) as [[m|e] w]; [|done].
    intros [= _ <-] k Hk. simpl in Hk. elem_cases. subst k.
    rewrite lookup_singleton_eq. by eexists.
  - rewrite get_historical_generation_data_run.
    by destruct (api_get_historical_generation _ _ _) as [[m|e] w].
  - rewrite get_historical_power_demand_data_run.
    destruct (api_get_historical_power_demand _) as [[m|e] w]; [|done].
    intros [= _ <-] k Hk. simpl in Hk. elem_cases. subst k.
    rewrite lookup_singleton_eq. by eexists.
  - unfold log, emit. simpl. by intros [= _ ?].
Qed.

(** An iteration never drops a key, and one that records a success has
    put every slot of its dataset into the dictionary. *)
Lemma body_fills d data (st st1 : State W) data1 :
  for_dataset_body d data st = (st1, Ok data1) →
  (∀ k, is_Some (data !! k) → is_Some (data1 !! k)) ∧
  (EvBarrierSuccess d ∈ new_events st st1 →
   ∀ k, k ∈ slots d → is_Some (data1 !! k)).
Proof.
  intros Hrun.
  pose proof (body_sound _ _ _ _ _ Hrun) as Hstep.
  apply body_step_summary in Hstep as (tr & Etr & _ & _ & Hstate).
  rewrite (new_events_app _ _ _ Etr).
  destruct Hstate as [(_ & [[= <-]|(e & ? & _)] & Hquiet)
                     |(l & fr & Hl & _ & _ & _ & Hs)]; [done..|].
  destruct (Barrier_check_cases (heap st l) (clock_barrier (world st)))
    as [Hc|[reason Hc]].
  - rewrite (body_allowed_run _ _ _ l Hl Hc) in Hrun.
    destruct (fetch d _) as [stf [[fragment|]|e]] eqn:Hf.
    + injection Hrun as _ <-. unfold dict_update. split.
      * intros k Hk. apply lookup_union_is_Some. by right.
      * intros _ k Hk. apply lookup_union_is_Some. left.
        by eapply fetch_fragment_complete.
    + injection Hrun as <- <-.
      pose proof (fetch_sound d (add_events
        [EvBarrierCheck d (Ok ()); EvLog (LogAllowed d)] st)) as Ho.
      rewrite Hf in Ho. simpl in Ho. inversion Ho; subst. simpl in Etr.
      rewrite <- !app_assoc in Etr. apply app_inv_head in Etr as <-.
      simpl in Hs. elem_cases; done.
    + pose proof (fetch_sound d (add_events
        [EvBarrierCheck d (Ok ()); EvLog (LogAllowed d)] st)) as Ho.
      rewrite Hf in Ho. simpl in Ho. inversion Ho; subst.
      destruct (is_Exception e); [|done]. injection Hrun as <- <-.
      simpl in Etr. rewrite <- !app_assoc in Etr.
      apply app_inv_head in Etr as <-. simpl in Hs. elem_cases; done.
  - rewrite (body_denied_run _ _ _ l reason Hl Hc) in Hrun.
    injection Hrun as <- <-. simpl in Etr.
    apply app_inv_head in Etr as <-. simpl in Hs. elem_cases; done.
Qed.

Lemma loop_fills ds data (st st' : State W) updated :
  for_dataset_in ds data st = (st', Ok updated) →
  NoDup ds →
  (∀ k, is_Some (data !! k) → is_Some (updated !! k)) ∧
  (∀ d, EvBarrierSuccess d ∈ new_events st st' →
        ∀ k, k ∈ slots d → is_Some (updated !! k)).
Proof.
  revert data st. induction ds as [|d0 rest IH]; intros data st; simpl.
  - intros [= <- <-] _. split; [done|]. intros d Hin.
    unfold new_events in Hin. rewrite drop_all in Hin.
    by apply elem_of_nil in Hin.
  - rewrite bind_run.
    destruct (for_dataset_body d0 data st) as [st1 [data1|e]] eqn:Hb; [|done].
    intros Hrest [Hnotin Hnd]%NoDup_cons.
    destruct (body_fills _ _ _ _ _ Hb) as [Hmono Hfill].
    destruct (IH _ _ Hrest Hnd) as [Hmono' Hfill'].
    pose proof (body_sound _ _ _ _ _ Hb) as Hstep.
    apply body_step_summary in Hstep as (tr_d & Etr & Eself & Hi & _).
    pose proof (for_dataset_in_sound _ _ _ _ _ Hrest) as Hloop.
    apply loop_run_summary in Hloop as (tr_r & Etr' & _ & Hev & _).
    assert (Enew : new_events st st' = tr_d ++ tr_r)
      by (apply new_events_app; by rewrite Etr', Etr, app_assoc).
    rewrite (new_events_app _ _ _ Etr) in Hfill.
    rewrite (new_events_app _ _ _ Etr') in Hfill'.
    split; [by auto|].
    intros d Hin k Hk. rewrite Enew in Hin.
    apply elem_of_app in Hin as [Hin|Hin]; [|by eapply Hfill'].
    pose proof (iteration_events_about _ _ _ Hi) as Habout.
    rewrite Forall_forall in Habout. apply Habout in Hin as Hd.
    injection Hd as ->. by auto.
Qed.

Lemma raw_update_loop datasets now (st st' : State W) updated :
  _async_update_data_raw datasets now st = (st', Ok updated) →
  for_dataset_in (requested datasets) ∅ st = (st', Ok updated).
Proof.
  unfold _async_update_data_raw. rewrite bind_run.
  destruct now as [n|]; unfold dt_util_utcnow, mret, M_ret; simpl; [|done].
  by destruct (ne_timezone_utc (dt_tzinfo n)).
Qed.

(** X9. The dictionary a raw update returns holds exactly the slots of the
    datasets with a success recorded in that update: nothing for a dataset
    that was skipped, denied or failed, every slot of a dataset that was
    fetched.  With no success at all it is empty. *)
Theorem updated_data_is_what_succeeded
    (datasets : Z) (now : option datetime) (st : State W) :
  match (_async_update_data_raw datasets now st).2 with
  | Ok updated_data =>
      (∀ k, is_Some (updated_data !! k) ↔
            ∃ d, EvBarrierSuccess d
                   ∈ new_events st (_async_update_data_raw datasets now st).1 ∧
                 k ∈ slots d) ∧
      ((∀ d, EvBarrierSuccess d
               ∉ new_events st (_async_update_data_raw datasets now st).1) →
       updated_data = ∅)
  | Raise _ => True
  end.
Proof.
  destruct (_async_update_data_raw datasets now st) as [st' [updated|e]] eqn:E;
    [|done]. simpl.
  pose proof (raw_update_summary _ _ _ _ _ E) as (tr & Etr & _ & _ & _ & Hres).
  apply raw_update_loop in E.
  destruct (loop_fills _ _ _ _ _ E (NoDup_requested datasets)) as [_ Hfill].
  rewrite (new_events_app _ _ _ Etr) in *.
  assert (Hkeys : ∀ k, is_Some (updated !! k) ↔
                       ∃ d, EvBarrierSuccess d ∈ tr ∧ k ∈ slots d).
  { intros k. split.
    - intros Hk. destruct (Hres k Hk) as (d & _ & ? & ?). by exists d.
    - intros (d & Hs & Hk). by eapply Hfill. }
  split; [done|]. intros Hquiet. apply map_empty. intros k.
  apply eq_None_not_Some. intros (d & Hs & _)%Hkeys. by apply (Hquiet d).
Qed.

(** X10. The scheduled update reads the clock itself, so the timestamp check
    cannot fail there; with barriers whose [check()] raises nothing but
    [BarrierDeniedError], an exception that leaves [_async_update_data] is
    never an instance of [Exception] (it is a cancellation or the like,
    raised while a request was awaited). *)
Theorem scheduled_update_raises_no_Exception (st : State W) :
  match (_async_update_data st).2 with
  | Ok _ => True
  | Raise e => is_Exception e = false
  end.
Proof.
  rewrite async_update_data_run. cbv zeta.
  destruct (_async_update_data_raw _ None _) as [st' [updated|e]] eqn:E;
    [done|]. simpl.
  apply raw_update_summary in E
    as (tr & _ & _ & _ & _ & [?|(_ & _ & _ & n & [=] & _)]).
  done.
Qed.

Lemma slots_in_all_slots d k : k ∈ slots d → k ∈ all_slots.
Proof.
  unfold all_slots. destruct d; simpl; intros Hk; elem_cases; subst;
    elem_solve.
Qed.

(** X11. The snapshot keeps its shape through a scheduled update: no key is
    ever dropped, and the only keys that can appear are the five slots.  A
    snapshot whose keys are the five slots comes back with the same keys. *)
Theorem snapshot_keeps_its_keys (st : State W) :
  match (_async_update_data st).2 with
  | Ok snapshot =>
      dom (data (self st)) ⊆ dom snapshot ∧
      dom snapshot ⊆ dom (data (self st)) ∪ list_to_set all_slots ∧
      (dom (data (self st)) = list_to_set all_slots →
       dom snapshot = list_to_set all_slots)
  | Raise _ => True
  end.
Proof.
  rewrite async_update_data_run. cbv zeta.
  destruct (_async_update_data_raw _ None _) as [st' [updated|e]] eqn:E;
    [|done]. simpl.
  apply raw_update_summary in E as (tr & _ & _ & _ & _ & Hres).
  assert (Hup : dom updated ⊆@{gset string} list_to_set all_slots).
  { intros k Hk%elem_of_dom. destruct (Hres k Hk) as (d & _ & Hs & _).
    apply elem_of_list_to_set. by eapply slots_in_all_slots. }
  unfold dict_or. rewrite dom_union_L. split_and!.
  - apply union_subseteq_r.
  - apply union_subseteq. split; [|apply union_subseteq_l].
    etrans; [exact Hup | apply union_subseteq_r].
  - intros Hdom. rewrite Hdom. by apply subseteq_union_1_L.
Qed.

(** X12. A new coordinator starts with every one of the five slots holding
    [None] and no other key, with the barriers it was given and with no
    sensor. *)
Theorem init_starts_empty (bs : gmap Z loc) :
  dom (data (init bs)) = list_to_set all_slots ∧
  (∀ k v, data (init bs) !! k = Some v → v = VNone) ∧
  barriers (init bs) = bs ∧ sensors (init bs) = [].
Proof.
  split_and!; [| |done..].
  - simpl. unfold init_data. rewrite dom_list_to_map_L.
    rewrite <- list_fmap_compose. f_equal.
  - simpl. unfold init_data. intros k v Hk.
    apply elem_of_list_to_map_2 in Hk.
    by apply list_elem_of_fmap in Hk as (k' & [= _ ->] & _).
Qed.

(** ** The registry of sensors *)



Lemma union_of_declared_cons (sensor : IDeEntity) (l : list IDeEntity) :
  union_of (declared (sensor :: l))
  = Z.lor (union_of (I_DE_DATA_SETS sensor)) (union_of (declared l)).
Proof. unfold declared. simpl. apply union_of_app. Qed.


Lemma union_of_declared_app (l l' : list IDeEntity) :
  union_of (declared (l ++ l'))
  = Z.lor (union_of (declared l)) (union_of (declared l')).
Proof.
  induction l as [|x l IH].
  - done.
  - change ((x :: l) ++ l') with (x :: (l ++ l')).
    by rewrite !union_of_declared_cons, IH, Z.lor_assoc.
Qed.

(** X13. [register_sensor] appends the sensor, whether or not it is
    registered already, and touches nothing else; from then on the scheduled
    update requests what it requested before and what the new sensor
    declares. *)
Theorem register_sensor_adds (sensor : IDeEntity) (st : State W) :
  register_sensor sensor st
    = (mk_State
         (mk_Coordinator (data (self st)) (barriers (self st))
            (sensors (self st) ++ [sensor]))
         (heap st) (world st)
         (trace st ++ [EvLog (LogRegistered (class_name sensor))]),
       Ok ()) ∧
  union_of (declared (sensors (self st) ++ [sensor]))
    = Z.lor (union_of (declared (sensors (self st))))
        (union_of (I_DE_DATA_SETS sensor)) ∧
  (∀ x, x ∈ requested (union_of (declared (sensors (self st) ++ [sensor]))) ↔
        x ∈ requested (union_of (declared (sensors (self st)))) ∨
        x ∈ requested (union_of (I_DE_DATA_SETS sensor))).
Proof.
  assert (Hds : union_of (declared (sensors (self st) ++ [sensor]))
                = Z.lor (union_of (declared (sensors (self st))))
                    (union_of (I_DE_DATA_SETS sensor))).
  { rewrite union_of_declared_app, union_of_declared_cons.
    unfold declared at 3. simpl. by rewrite Z.lor_0_r. }
  split_and!; [done.. |].
  intros x. rewrite Hds. apply requested_lor.
Qed.



(** X16. [update_internal_data] changes the snapshot and nothing else;
    merging [d1] and then [d2] is merging [d1 | d2], merging the same
    dictionary twice is merging it once, and merging the empty dictionary
    changes nothing. *)
Theorem update_internal_data_composes
    (d1 d2 : gmap string Value) (st : State W) :
  update_internal_data d1 st
    = (mk_State
         (mk_Coordinator (dict_or (data (self st)) d1) (barriers (self st))
            (sensors (self st)))
         (heap st) (world st) (trace st), Ok ()) ∧
  (update_internal_data d2 (update_internal_data d1 st).1).1
    = (update_internal_data (dict_or d1 d2) st).1 ∧
  (update_internal_data d1 (update_internal_data d1 st).1).1
    = (update_internal_data d1 st).1 ∧
  data (self (update_internal_data ∅ st).1) = data (self st).
Proof.
  unfold update_internal_data. rewrite !bind_run.
  unfold get_self, set_self, dict_or. simpl.
  split_and!; [done | | |].
  - by rewrite (assoc_L (∪)).
  - by rewrite (assoc_L (∪)), (idemp_L (∪)).
  - by rewrite (left_id_L ∅ (∪)).
Qed.

(** ** The fetch routines *)

(** X17. Normalising a historical line twice is normalising it once: the
    zone is attached by replacement, so a line that comes back from the
    client already normalised is left as it is. *)
Theorem normalisation_is_idempotent
    (item : PeriodValue) (demand : DemandAtInstant) :
  normalize_period_item (normalize_period_item item)
    = normalize_period_item item ∧
  normalize_dated_item (normalize_dated_item demand)
    = normalize_dated_item demand.
Proof. split; reflexivity. Qed.

Lemma new_events_extended (st : State W) c h w (tr : list Event) :
  new_events st (mk_State c h w (trace st ++ tr)) = tr.
Proof. by apply new_events_app. Qed.

(** X18. The measure fragment is one reading: when the request answers,
    the instant and the accumulated slot hold the two values of that one
    answer (one request was sent), and when it fails the routine fails with
    the same exception. *)
Theorem direct_reading_is_one_reading (st : State W) :
  match (api_get_measure (world st)).1 with
  | Ok m =>
      ∃ fragment,
        (get_direct_reading_data st).2 = Ok fragment ∧
        fragment !! DATA_ATTR_MEASURE_INSTANT = Some (VFloat (instant m)) ∧
        (DATA_ATTR_MEASURE_ACCUMULATED ≠ DATA_ATTR_MEASURE_INSTANT →
         fragment !! DATA_ATTR_MEASURE_ACCUMULATED
           = Some (VInt (accumulate m)))
  | Raise e => (get_direct_reading_data st).2 = Raise e
  end ∧
  filter (λ e, is_request e) (new_events st (get_direct_reading_data st).1)
    = [EvApi ApiGetMeasure].
Proof.
  rewrite get_direct_reading_data_run.
  destruct (api_get_measure (world st)) as [[m|e] w]; simpl.
  - split.
    + eexists. split_and!; [done | by rewrite lookup_insert_eq |].
      intros Hne. rewrite lookup_insert_ne by done.
      by rewrite lookup_insert_eq.
    + by rewrite new_events_extended.
  - split; [done|]. by rewrite new_events_extended.
Qed.

(** X19. How a fetch routine ends follows the request it sends.  When the
    request fails, the routine fails with the same exception, having
    entered and sent that one request.  When it answers, the
    historical-generation routine raises [NotImplementedError] and every
    other routine returns a fragment whose keys are the slots of its
    dataset.  The barriers and the coordinator are not touched. *)
Theorem fetch_follows_the_request (f : FetchRoutine) (st : State W) :
  let d := routine_dataset f in
  match request_failure f st with
  | Some e =>
      (fetch d st).2 = Raise e ∧
      new_events st (fetch d st).1 = [EvInvoke f; EvApi (request_of f st)]
  | None =>
      match f with
      | FetchHistoricalGeneration =>
          (fetch d st).2 = Raise NotImplementedError ∧
          new_events st (fetch d st).1 = [EvInvoke f; EvApi (request_of f st)]
      | _ =>
          (∃ fragment,
             (fetch d st).2 = Ok (Some fragment) ∧
             ∀ k, is_Some (fragment !! k) ↔ k ∈ slots d) ∧
          new_events st (fetch d st).1
            = [EvInvoke f; EvApi (request_of f st); EvReturn f]
      end
  end ∧
  self (fetch d st).1 = self st ∧ heap (fetch d st).1 = heap st.
Proof.
  intros d. subst d.
  pose proof (fetch_sound (routine_dataset f) st) as Hsound.
  destruct (fetch_outcome_frame _ _ _ _ Hsound) as [Hself Hheap].
  split; [|done]. clear Hsound Hself Hheap.
  destruct f; unfold fetch, request_failure; simpl; rewrite bind_run.
  - rewrite get_direct_reading_data_run.
    destruct (api_get_measure (world st)) as [[m|e] w]; simpl.
    2: { split; [done | by rewrite new_events_extended]. }
    split; [|by rewrite new_events_extended].
    eexists. split; [done|]. intros k.
    rewrite lookup_insert_is_Some, lookup_insert_is_Some, lookup_empty.
    rewrite !elem_of_cons, elem_of_nil. split.
    + intros [<-|[_ [<-|[_ [? ?]]]]]; [by right; left | by left | done].
    + intros [->|[->|[]]].
      * destruct (decide (DATA_ATTR_MEASURE_INSTANT
                          = DATA_ATTR_MEASURE_ACCUMULATED));
          [by left | right]. split; [done | by left].
      * by left.
  - rewrite get_historical_consumption_data_run.
    destruct (api_get_historical_consumption _ _ _) as [[m|e] w]; simpl.
    2: { split; [done | by rewrite new_events_extended]. }
    split; [|by rewrite new_events_extended].
    eexists. split; [done|]. intros k.
    rewrite list_elem_of_singleton. split.
    + by intros [v [<- _]%lookup_singleton_Some].
    + intros ->. rewrite lookup_singleton_eq. by eexists.
  - rewrite get_historical_generation_data_run.
    destruct (api_get_historical_generation _ _ _) as [[m|e] w]; simpl;
      (split; [done | by rewrite new_events_extended]).
  - rewrite get_historical_power_demand_data_run.
    destruct (api_get_historical_power_demand _) as [[m|e] w]; simpl.
    2: { split; [done | by rewrite new_events_extended]. }
    split; [|by rewrite new_events_extended].
    eexists. split; [done|]. intros k.
    rewrite list_elem_of_singleton. split.
    + by intros [v [<- _]%lookup_singleton_Some].
    + intros ->. rewrite lookup_singleton_eq. by eexists.
Qed.

(** ** The loop, when an exception is not caught *)

(** X20. When a dataset's barrier allows and its fetch raises an exception
    that is not an instance of [Exception], no [except] clause takes it:
    the loop ends there with that exception, whatever datasets remain;
    nothing is logged after the request, and the barriers and the
    coordinator are as they were. *)
Theorem uncaught_exception_ends_the_loop
    (dataset : DataSetType) (rest : list DataSetType)
    (data : gmap string Value) (st stf : State W) (l : loc) (e : exn) :
  barriers (self st) !! value dataset = Some l →
  Barrier_check (heap st l) (clock_barrier (world st)) = Ok () →
  fetch dataset
    (add_events [EvBarrierCheck dataset (Ok ()); EvLog (LogAllowed dataset)]
       st)
    = (stf, Raise e) →
  is_Exception e = false →
  for_dataset_in (dataset :: rest) data st = (stf, Raise e) ∧
  self stf = self st ∧ heap stf = heap st ∧
  ∃ f, routine_dataset f = dataset ∧
       new_events st stf
         = allowed_block dataset f
             (request_of f
                (add_events
                   [EvBarrierCheck dataset (Ok ()); EvLog (LogAllowed dataset)]
                   st)).
Proof.
  intros Hl Hc Hf He.
  pose proof (fetch_sound dataset
    (add_events [EvBarrierCheck dataset (Ok ()); EvLog (LogAllowed dataset)]
       st)) as Hs.
  rewrite Hf in Hs. simpl in Hs.
  split_and!.
  - simpl. rewrite bind_run, (body_allowed_run _ _ _ l Hl Hc), Hf.
    by rewrite He.
  - by apply fetch_outcome_frame in Hs as [? _].
  - by apply fetch_outcome_frame in Hs as [_ ?].
  - inversion Hs as [|f w e' Hd|]; subst. exists f. split; [done|].
    apply new_events_app. simpl. by rewrite <- app_assoc.
Qed.

End Coverage.

(** * More of the coordinator, run on the scripted world *)

(** X5 at work: the measure request of the update with every barrier
    allowing. *)
Lemma requests_are_gated_witness :
  EvApi ApiGetMeasure ∈ new_events Scenarios.sunny Scenarios.sunny_run.1 ∧
  ∃ pre post f (st0 : State Demo.World),
    ApiGetMeasure = request_of f st0 ∧
    new_events Scenarios.sunny Scenarios.sunny_run.1
      = pre ++ allowed_block (routine_dataset f) f ApiGetMeasure ++ post ∧
    routine_dataset f ∈ requested 15 ∧
    is_Some (barriers (self Scenarios.sunny) !! value (routine_dataset f)).
Proof.
  assert (H1 : EvApi ApiGetMeasure
                 ∈ new_events Scenarios.sunny Scenarios.sunny_run.1).
  { apply list_elem_of_In. vm_compute. tauto. }
  split; [exact H1|].
  exact (requests_are_gated 15 None Scenarios.sunny ApiGetMeasure H1).
Defined.

(** X7 at work: every barrier had its last success ten seconds ago. *)
Lemma denied_dataset_is_left_alone_witness :
  EvBarrierCheck MEASURE
    (Raise (BarrierDeniedError "minimum interval not elapsed"))
    ∈ new_events MoreScenarios.too_soon MoreScenarios.too_soon_run.1 ∧
  events_about MEASURE
    (new_events MoreScenarios.too_soon MoreScenarios.too_soon_run.1)
    = [EvBarrierCheck MEASURE
         (Raise (BarrierDeniedError "minimum interval not elapsed"));
       EvLog (LogDenied MEASURE "minimum interval not elapsed")].
Proof.
  assert (H1 : EvBarrierCheck MEASURE
                 (Raise (BarrierDeniedError "minimum interval not elapsed"))
                 ∈ new_events MoreScenarios.too_soon
                     MoreScenarios.too_soon_run.1).
  { apply list_elem_of_In. vm_compute. tauto. }
  split; [exact H1|].
  exact (denied_dataset_is_left_alone 15 None MoreScenarios.too_soon MEASURE
           "minimum interval not elapsed" H1).
Defined.

(** X8 at work: the success of the measure. *)
Lemma success_follows_the_fetch_witness :
  EvBarrierSuccess MEASURE
    ∈ new_events Scenarios.sunny Scenarios.sunny_run.1 ∧
  ∃ pre post f (st0 : State Demo.World),
    routine_dataset f = MEASURE ∧ f ≠ FetchHistoricalGeneration ∧
    new_events Scenarios.sunny Scenarios.sunny_run.1
      = pre ++ fetched_block MEASURE f (request_of f st0) ++ post.
Proof.
  assert (H1 : EvBarrierSuccess MEASURE
                 ∈ new_events Scenarios.sunny Scenarios.sunny_run.1).
  { apply list_elem_of_In. vm_compute. tauto. }
  split; [exact H1|].
  exact (success_follows_the_fetch 15 None Scenarios.sunny MEASURE H1).
Defined.


(** X20 at work: the task is cancelled while the measure is awaited. *)
Lemma uncaught_exception_ends_the_loop_witness :
  (barriers (self MoreScenarios.cancelled_start) !! value MEASURE
     = Some 0%nat ∧
   Barrier_check (heap MoreScenarios.cancelled_start 0%nat)
     (clock_barrier (world MoreScenarios.cancelled_start)) = Ok () ∧
   fetch MEASURE MoreScenarios.cancelled_allowed
     = (MoreScenarios.cancelled_fetched, Raise Demo.cancelled) ∧
   is_Exception Demo.cancelled = false) ∧
  for_dataset_in [MEASURE; HISTORICAL_CONSUMPTION] ∅
    MoreScenarios.cancelled_start
    = (MoreScenarios.cancelled_fetched, Raise Demo.cancelled) ∧
  self MoreScenarios.cancelled_fetched = self MoreScenarios.cancelled_start ∧
  heap MoreScenarios.cancelled_fetched = heap MoreScenarios.cancelled_start ∧
  ∃ f, routine_dataset f = MEASURE ∧
       new_events MoreScenarios.cancelled_start MoreScenarios.cancelled_fetched
         = allowed_block MEASURE f
             (request_of f MoreScenarios.cancelled_allowed).
Proof.
  assert (H1 : barriers (self MoreScenarios.cancelled_start) !! value MEASURE
               = Some 0%nat) by (vm_compute; reflexivity).
  assert (H2 : Barrier_check (heap MoreScenarios.cancelled_start 0%nat)
                 (clock_barrier (world MoreScenarios.cancelled_start))
               = Ok ()) by (vm_compute; reflexivity).
  assert (H3 : fetch MEASURE MoreScenarios.cancelled_allowed
               = (MoreScenarios.cancelled_fetched, Raise Demo.cancelled))
    by (vm_compute; reflexivity).
  assert (H4 : is_Exception Demo.cancelled = false)
    by (vm_compute; reflexivity).
  split; [done|].
  exact (uncaught_exception_ends_the_loop MEASURE [HISTORICAL_CONSUMPTION] ∅
           MoreScenarios.cancelled_start MoreScenarios.cancelled_fetched
           0%nat Demo.cancelled H1 H2 H3 H4).
Defined.
